(** * Eviction-notice detection and argument selection

    A shallow embedding of [services/eviction_ocr_llm_helper.py]:
    the date extractor ([DATE_REGEXES], [MONTH_MAP], [_normalize_year],
    [extract_dates]), the detection engine
    ([detect_eviction_and_3_day_gap]) and the argument composer
    ([generate_eviction_argument_section_from_up_codes]).

    Conventions of the embedding.
    - A Python [str] is a [string]; its characters are the code points
      U+0000..U+00FF (the 8-bit [ascii] type).  The character tables
      used by [str.lower] and by the [re] classes [\d], [\s], [\b] are the
      Unicode ones restricted to that range.
    - Python integers are [Z].
    - Code that may raise is written in the exception monad [exc];
      [try ... except Exception: continue] is a match on the outcome.
    - The completion service called by the composer is a parameter; the
      composer returns the prompts it sent together with its result. *)

From Stdlib Require Import ZArith List Bool Ascii String Lia.
From Stdlib Require Import Sorted Permutation DecimalString.
Import ListNotations.

Set Implicit Arguments.

Local Open Scope string_scope.
Local Open Scope Z_scope.

(* ================================================================== *)
(** * Exceptions *)

Inductive py_exception : Type :=
| ValueError
| KeyError
| IndexError
| OtherError (msg : string).

Inductive exc (A : Type) : Type :=
| Ok (a : A)
| Raise (e : py_exception).

Arguments Ok {A} a.
Arguments Raise {A} e.

Definition bind {A B : Type} (m : exc A) (k : A -> exc B) : exc B :=
  match m with
  | Ok a => k a
  | Raise e => Raise e
  end.

Notation "x <- m ;; k" := (bind m (fun x => k))
  (at level 61, m at next level, right associativity).

(** [for x in l: s = body x s], stopping at the first exception. *)
Fixpoint for_each {A S : Type} (l : list A) (body : A -> S -> exc S) (s : S)
  : exc S :=
  match l with
  | [] => Ok s
  | x :: l' => s' <- body x s ;; for_each l' body s'
  end.

(** [range(a, b)]. *)
Definition range (a b : nat) : list nat := seq a (b - a).

(** [l[i]] for a list. *)
Definition list_getitem {A : Type} (l : list A) (i : nat) : exc A :=
  match nth_error l i with
  | Some x => Ok x
  | None => Raise IndexError
  end.

(* ================================================================== *)
(** * Characters and strings *)

Definition ord (c : ascii) : N := N_of_ascii c.

Definition in_range (lo hi n : N) : bool := ((lo <=? n) && (n <=? hi))%N.

(** [\d]: the decimal digits (category Nd); below U+0100 these are 0-9. *)
Definition is_decimal (c : ascii) : bool := in_range 48 57 (ord c).

(** [\s]: tab, line feed, vertical tab, form feed, carriage return, the
    separators U+001C..U+001F, space, NEL (U+0085) and no-break space. *)
Definition is_space (c : ascii) : bool :=
  let n := ord c in
  (in_range 9 13 n || in_range 28 32 n || (n =? 133) || (n =? 160))%N.

(** Alphanumeric characters as [\w] sees them: letters, decimal digits,
    and the other digits and numerics (superscripts and fractions). *)
Definition is_alnum (c : ascii) : bool :=
  let n := ord c in
  (in_range 48 57 n || in_range 65 90 n || in_range 97 122 n
   || (n =? 170) || (n =? 181) || (n =? 186)
   || in_range 178 179 n || (n =? 185) || in_range 188 190 n
   || in_range 192 214 n || in_range 216 246 n || in_range 248 255 n)%N.

(** [\w]. *)
Definition is_word (c : ascii) : bool := (is_alnum c || (ord c =? 95)%N).

(** One character of [str.lower()]: A-Z, and the upper-case letters
    U+00C0..U+00DE other than the multiplication sign, move up by 32. *)
Definition lower_char (c : ascii) : ascii :=
  let n := ord c in
  if (in_range 65 90 n || in_range 192 214 n || in_range 216 222 n)%N
  then ascii_of_N (n + 32)
  else c.

(** [s.lower()]. *)
Fixpoint lower (s : string) : string :=
  match s with
  | EmptyString => EmptyString
  | String c s' => String (lower_char c) (lower s')
  end.

(** [s.startswith(p)]. *)
Fixpoint startswith (p s : string) : bool :=
  match p, s with
  | EmptyString, _ => true
  | String _ _, EmptyString => false
  | String a p', String b s' => Ascii.eqb a b && startswith p' s'
  end.

(** [p in s] for strings: [p] occurs in [s] as a substring. *)
Fixpoint contains (s p : string) : bool :=
  startswith p s ||
  match s with
  | EmptyString => false
  | String _ s' => contains s' p
  end.

(** The first [n] characters of [s]. *)
Fixpoint take (n : nat) (s : string) : string :=
  match n, s with
  | S n', String c s' => String c (take n' s')
  | _, _ => EmptyString
  end.

(** [int(s)] for a string of decimal digits, as the groups [\d{..}]
    deliver; anything else is a [ValueError]. *)
Fixpoint int_digits (acc : Z) (s : string) : option Z :=
  match s with
  | EmptyString => Some acc
  | String c s' =>
      if is_decimal c
      then int_digits (10 * acc + Z.of_N (ord c - 48)) s'
      else None
  end.

Definition int (s : string) : exc Z :=
  match s with
  | EmptyString => Raise ValueError
  | _ => match int_digits 0 s with
         | Some n => Ok n
         | None => Raise ValueError
         end
  end.

(** ["%0<w>d" % n] for [n >= 0]. *)
Fixpoint zeros (k : nat) : string :=
  match k with
  | O => EmptyString
  | S k' => String "0" (zeros k')
  end.

Definition format_0d (w : nat) (n : Z) : string :=
  let s := NilZero.string_of_int (Z.to_int n) in
  zeros (w - String.length s) ++ s.

(* ================================================================== *)
(** * Regular expressions: the fragment of [re] that [DATE_REGEXES] uses

    Matching is the backtracking search of [re], with the flag
    [re.IGNORECASE]: [mtch r st] lists, in the order the search tries
    them, the cursors at which a match of [r] begun at [st] can end.
    Alternation tries its branches left to right and quantifiers are
    greedy, so the match [re] reports is the head of the list. *)

Inductive charclass : Type :=
| Digit   (* \d *)
| Space.  (* \s *)

Definition in_class (k : charclass) (c : ascii) : bool :=
  match k with
  | Digit => is_decimal c
  | Space => is_space c
  end.

Inductive regex : Type :=
| Fail                                              (* no branch at all *)
| Empty                                             (* the empty pattern *)
| Lit (c : ascii)                                   (* one literal character *)
| Cls (k : charclass) (lo : nat) (hi : option nat)  (* \d{lo,hi}, \s+ *)
| Boundary                                          (* \b *)
| Cat (r1 r2 : regex)                               (* r1 r2 *)
| Alt (r1 r2 : regex)                               (* r1|r2 *)
| Opt (r : regex)                                   (* (?:r)? *)
| Named (name : string) (r : regex).                (* (?P<name>r) *)

(** A position in the subject string: its index, the character before
    it, the text from it on, and the groups captured so far. *)
Record cursor : Type := mkCursor {
  pos : nat;
  prev : option ascii;
  rest : string;
  groups : list (string * string)
}.

Fixpoint advance (n : nat) (st : cursor) : cursor :=
  match n, rest st with
  | S n', String c s' =>
      advance n' (mkCursor (S (pos st)) (Some c) s' (groups st))
  | _, _ => st
  end.

Definition set_group (name value : string) (st : cursor) : cursor :=
  mkCursor (pos st) (prev st) (rest st) ((name, value) :: groups st).

(** The length of the longest prefix of [s] made of characters of [k]. *)
Fixpoint run (k : charclass) (s : string) : nat :=
  match s with
  | String c s' => if in_class k c then S (run k s') else O
  | EmptyString => O
  end.

Definition word_before (st : cursor) : bool :=
  match prev st with
  | Some c => is_word c
  | None => false
  end.

Definition word_after (st : cursor) : bool :=
  match rest st with
  | String c _ => is_word c
  | EmptyString => false
  end.

(** Under [re.IGNORECASE] a literal matches a character when their
    lower-case forms agree (for an uncased literal: when they are equal). *)
Definition lit_matches (c a : ascii) : bool :=
  Ascii.eqb (lower_char a) (lower_char c).

Fixpoint mtch (r : regex) (st : cursor) : list cursor :=
  match r with
  | Fail => []
  | Empty => [st]
  | Lit c =>
      match rest st with
      | String a _ => if lit_matches c a then [advance 1 st] else []
      | EmptyString => []
      end
  | Cls k lo hi =>
      let avail := run k (rest st) in
      let most := match hi with
                  | Some h => Nat.min h avail
                  | None => avail
                  end in
      map (fun n => advance n st) (rev (seq lo (S most - lo)))
  | Boundary => if xorb (word_before st) (word_after st) then [st] else []
  | Cat r1 r2 => flat_map (mtch r2) (mtch r1 st)
  | Alt r1 r2 => mtch r1 st ++ mtch r2 st
  | Opt r' => mtch r' st ++ [st]
  | Named name r' =>
      map (fun st' => set_group name (take (pos st' - pos st) (rest st)) st')
          (mtch r' st)
  end.

(** [m.groupdict()] of the match found at a cursor, if any. *)
Definition groupdict : Type := list (string * string).

Definition match_at (r : regex) (st : cursor) : option cursor :=
  hd_error (mtch r st).

(** [re.finditer(r, s, flags=re.IGNORECASE)]: the non-overlapping matches
    from left to right.  [skip] counts the positions still covered by the
    previous match; a match is attempted at every other position,
    including the end of the string.  (The patterns below never match the
    empty string.) *)
Fixpoint finditer_from (r : regex) (skip p : nat) (pv : option ascii)
  (s : string) : list groupdict :=
  let here :=
    match skip with
    | O => match_at r (mkCursor p pv s [])
    | S _ => None
    end in
  let onward (skip' : nat) :=
    match s with
    | EmptyString => []
    | String c s' => finditer_from r skip' (S p) (Some c) s'
    end in
  match here with
  | Some st' => groups st' :: onward (Nat.pred (pos st' - p))
  | None => onward (Nat.pred skip)
  end.

Definition finditer (r : regex) (s : string) : list groupdict :=
  finditer_from r 0 0 None s.

(** [gd.get(name)] and [gd[name]]. *)
Fixpoint gd_get (gd : groupdict) (name : string) : option string :=
  match gd with
  | [] => None
  | (k, v) :: gd' => if String.eqb k name then Some v else gd_get gd' name
  end.

Definition gd_getitem (gd : groupdict) (name : string) : exc string :=
  match gd_get gd name with
  | Some v => Ok v
  | None => Raise KeyError
  end.

(** Pattern syntax helpers: a sequence, an alternation, a literal word. *)
Definition cat (rs : list regex) : regex := fold_right Cat Empty rs.
Definition alt (rs : list regex) : regex := fold_right Alt Fail rs.

Fixpoint word (s : string) : regex :=
  match s with
  | EmptyString => Empty
  | String c s' => Cat (Lit c) (word s')
  end.

(** [Abc(?:defg)?] *)
Definition abbr (short long_tail : string) : regex :=
  Cat (word short) (Opt (word long_tail)).

(** [\b(?P<m>\d{1,2})<sep>(?P<d>\d{1,2})<sep>(?P<y>\d{2,4})\b] *)
Definition rx_numeric (sep : ascii) : regex :=
  cat [ Boundary;
        Named "m" (Cls Digit 1 (Some 2%nat)); Lit sep;
        Named "d" (Cls Digit 1 (Some 2%nat)); Lit sep;
        Named "y" (Cls Digit 2 (Some 4%nat));
        Boundary ].

Definition rx_slash : regex := rx_numeric "/".
Definition rx_dash : regex := rx_numeric "-".

(** [\b(?P<month>Jan(?:uary)?|...|Dec(?:ember)?)\s+(?P<d>\d{1,2})
     (?:st|nd|rd|th)?(?:,)?\s+(?P<y>\d{4})\b] *)
Definition rx_month_names : regex :=
  alt [ abbr "Jan" "uary"; abbr "Feb" "ruary"; abbr "Mar" "ch";
        abbr "Apr" "il"; word "May"; abbr "Jun" "e";
        abbr "Jul" "y"; abbr "Aug" "ust"; abbr "Sep" "tember";
        abbr "Oct" "ober"; abbr "Nov" "ember"; abbr "Dec" "ember" ].

Definition rx_month : regex :=
  cat [ Boundary;
        Named "month" rx_month_names;
        Cls Space 1 None;
        Named "d" (Cls Digit 1 (Some 2%nat));
        Opt (alt [word "st"; word "nd"; word "rd"; word "th"]);
        Opt (Lit ",");
        Cls Space 1 None;
        Named "y" (Cls Digit 4 (Some 4%nat));
        Boundary ].

Definition DATE_REGEXES : list regex := [rx_slash; rx_dash; rx_month].

(* ================================================================== *)
(** * Calendar dates

    [datetime(y, m, d)] builds a naive [datetime] at midnight, so the
    time-of-day fields (all zero) are left out of the record; [d.date()]
    keeps the three calendar fields.  The day arithmetic is that of the
    proleptic Gregorian calendar of Python's [datetime] module. *)

Record datetime : Type := mkDatetime {
  year : Z;
  month : Z;
  day : Z
}.

Definition date : Type := (Z * Z * Z)%type.

(** [d.date()] *)
Definition date_of (d : datetime) : date := (year d, month d, day d).

Definition MINYEAR : Z := 1.
Definition MAXYEAR : Z := 9999.

Definition _is_leap (y : Z) : bool :=
  (y mod 4 =? 0) && (negb (y mod 100 =? 0) || (y mod 400 =? 0)).

Definition _DAYS_IN_MONTH : list Z :=
  [-1; 31; 28; 31; 30; 31; 30; 31; 31; 30; 31; 30; 31].

Definition _DAYS_BEFORE_MONTH : list Z :=
  [-1; 0; 31; 59; 90; 120; 151; 181; 212; 243; 273; 304; 334].

Definition _days_in_month (y m : Z) : Z :=
  if (m =? 2) && _is_leap y then 29 else nth (Z.to_nat m) _DAYS_IN_MONTH 0.

Definition _days_before_year (y : Z) : Z :=
  let y := y - 1 in
  y * 365 + y / 4 - y / 100 + y / 400.

Definition _days_before_month (y m : Z) : Z :=
  nth (Z.to_nat m) _DAYS_BEFORE_MONTH 0
  + (if (2 <? m) && _is_leap y then 1 else 0).

Definition _ymd2ord (y m d : Z) : Z :=
  _days_before_year y + _days_before_month y m + d.

(** [datetime(y, m, d)]: a [ValueError] unless the fields are those of
    a calendar day of the years 1 to 9999. *)
Definition new_datetime (y m d : Z) : exc datetime :=
  if (MINYEAR <=? y) && (y <=? MAXYEAR)
     && (1 <=? m) && (m <=? 12)
     && (1 <=? d) && (d <=? _days_in_month y m)
  then Ok (mkDatetime y m d)
  else Raise ValueError.

Definition toordinal (d : date) : Z :=
  let '(y, m, dd) := d in _ymd2ord y m dd.

(** [(a - b).days] for two dates. *)
Definition days_between (a b : date) : Z := toordinal a - toordinal b.

(** [d.isoformat()] for a date: ["%04d-%02d-%02d"]. *)
Definition isoformat (d : date) : string :=
  let '(y, m, dd) := d in
  format_0d 4 y ++ "-" ++ format_0d 2 m ++ "-" ++ format_0d 2 dd.

Definition date_eqb (a b : date) : bool :=
  let '(y1, m1, d1) := a in
  let '(y2, m2, d2) := b in
  (y1 =? y2) && (m1 =? m2) && (d1 =? d2).

(** [a < b] on dates, and on datetimes at midnight. *)
Definition date_ltb (a b : date) : bool :=
  let '(y1, m1, d1) := a in
  let '(y2, m2, d2) := b in
  (y1 <? y2) || ((y1 =? y2) && ((m1 <? m2) || ((m1 =? m2) && (d1 <? d2)))).

Definition datetime_ltb (a b : datetime) : bool :=
  date_ltb (date_of a) (date_of b).

(** A [dict] keyed by dates, in insertion order: assigning to a key
    that is present replaces its value in place. *)
Definition date_dict : Type := list (date * datetime).

Fixpoint dict_set (k : date) (v : datetime) (d : date_dict) : date_dict :=
  match d with
  | [] => [(k, v)]
  | (k', v') :: d' =>
      if date_eqb k' k then (k', v) :: d' else (k', v') :: dict_set k v d'
  end.

Definition dict_values (d : date_dict) : list datetime := map snd d.

(** [sorted(l, key=lambda x: x)]: the stable sort by [<]. *)
Fixpoint insort (x : datetime) (l : list datetime) : list datetime :=
  match l with
  | [] => [x]
  | y :: l' => if datetime_ltb x y then x :: y :: l' else y :: insort x l'
  end.

Definition sorted (l : list datetime) : list datetime :=
  fold_left (fun acc x => insort x acc) l [].

(* ================================================================== *)
(** * The date extractor *)

Definition MONTH_MAP : list (string * Z) :=
  [ ("jan", 1); ("january", 1);
    ("feb", 2); ("february", 2);
    ("mar", 3); ("march", 3);
    ("apr", 4); ("april", 4);
    ("may", 5);
    ("jun", 6); ("june", 6);
    ("jul", 7); ("july", 7);
    ("aug", 8); ("august", 8);
    ("sep", 9); ("september", 9);
    ("oct", 10); ("october", 10);
    ("nov", 11); ("november", 11);
    ("dec", 12); ("december", 12) ].

(** [MONTH_MAP.get(name)] *)
Fixpoint map_get {V : Type} (m : list (string * V)) (name : string)
  : option V :=
  match m with
  | [] => None
  | (k, v) :: m' => if String.eqb k name then Some v else map_get m' name
  end.

Definition _normalize_year (y : Z) : Z :=
  if y <? 100 then 2000 + y else y.

(** The body of the [try] block for one match: [Ok None] is the
    [continue] taken when the month token is not in [MONTH_MAP]. *)
Definition date_of_match (gd : groupdict) : exc (option datetime) :=
  match gd_get gd "month" with
  | Some (String _ _ as name) =>
      match map_get MONTH_MAP (lower name) with
      | None => Ok None
      | Some mo =>
          if mo =? 0 then Ok None else
          ds <- gd_getitem gd "d" ;;
          d <- int ds ;;
          ys <- gd_getitem gd "y" ;;
          y <- int ys ;;
          dt <- new_datetime (_normalize_year y) mo d ;;
          Ok (Some dt)
      end
  | _ =>
      ms <- gd_getitem gd "m" ;;
      mo <- int ms ;;
      ds <- gd_getitem gd "d" ;;
      d <- int ds ;;
      ys <- gd_getitem gd "y" ;;
      y <- int ys ;;
      dt <- new_datetime (_normalize_year y) mo d ;;
      Ok (Some dt)
  end.

(** One turn of the inner loop: [try: ... dates.append(dt)
    except Exception: continue]. *)
Definition collect_match (dates : list datetime) (gd : groupdict)
  : list datetime :=
  match date_of_match gd with
  | Ok (Some dt) => (dates ++ [dt])%list
  | Ok None => dates
  | Raise _ => dates
  end.

(** The list [dates] after the two nested loops. *)
Definition matched_dates (text : string) : list datetime :=
  fold_left
    (fun dates rx => fold_left collect_match (finditer rx text) dates)
    DATE_REGEXES [].

(** [{d.date(): d for d in dates}] *)
Definition dict_by_day (dates : list datetime) : date_dict :=
  fold_left (fun acc d => dict_set (date_of d) d acc) dates [].

(** [s = text or ""] is [text] itself for a string.  Nothing outside
    the [try] block can raise, so the extractor is a plain function. *)
Definition extract_dates (text : string) : list datetime :=
  sorted (dict_values (dict_by_day (matched_dates text))).

(* ================================================================== *)
(** * The detection engine *)

Definition EVICTION_KEYWORDS : list string :=
  [ "eviction";
    "unlawful detainer";
    "notice to quit";
    "notice to vacate";
    "pay or quit";
    "cure or quit";
    "three-day notice";
    "3-day notice";
    "3 day notice" ].

(** The phrase list of [explicit_three_day]. *)
Definition THREE_DAY_PHRASES : list string :=
  [ "three-day notice";
    "three day notice";
    "3-day notice";
    "3 day notice";
    "three (3) day";
    "(3) day notice";
    "within 3 days";
    "within three days" ].

Definition GapPair : Type := (string * string * Z)%type.

Record DetectionResult : Type := mkResult {
  looks_like_eviction : bool;
  keyword_hits : list string;
  explicit_three_day_language : bool;
  extracted_dates : list string;
  date_pairs_with_3_day_gap : list GapPair;
  evicted_with_3_day_gap : bool
}.

(** [bool(l)] for a list. *)
Definition nonempty {A : Type} (l : list A) : bool :=
  match l with
  | [] => false
  | _ :: _ => true
  end.

(** The body of the inner loop of the gap search. *)
Definition gap_step (dates : list datetime) (i j : nat) (pairs : list GapPair)
  : exc (list GapPair) :=
  dj <- list_getitem dates j ;;
  di <- list_getitem dates i ;;
  let diff := Z.abs (days_between (date_of dj) (date_of di)) in
  if diff =? 3
  then Ok (pairs ++ [(isoformat (date_of di), isoformat (date_of dj), diff)])%list
  else Ok pairs.

(** The two nested [for] loops over [range(len(dates))] and
    [range(i + 1, len(dates))]. *)
Definition gap_search (dates : list datetime) : exc (list GapPair) :=
  for_each (range 0 (List.length dates))
    (fun i pairs =>
       for_each (range (i + 1) (List.length dates)) (gap_step dates i) pairs)
    [].

(** [t = (ocr_text or "").lower()]; the dates are extracted from
    [ocr_text] itself, not from [t]. *)
Definition detect_eviction_and_3_day_gap (ocr_text : string)
  : exc DetectionResult :=
  let t := lower ocr_text in
  let keyword_hits := filter (fun kw => contains t kw) EVICTION_KEYWORDS in
  let looks_like_eviction := (0 <? Z.of_nat (List.length keyword_hits)) in
  let explicit_three_day :=
    existsb (fun phrase => contains t phrase) THREE_DAY_PHRASES in
  let dates := extract_dates ocr_text in
  date_pairs_3_days <- gap_search dates ;;
  let has_three_day_gap := explicit_three_day || nonempty date_pairs_3_days in
  Ok (mkResult
        looks_like_eviction
        keyword_hits
        explicit_three_day
        (map (fun d => isoformat (date_of d)) dates)
        date_pairs_3_days
        (looks_like_eviction && has_three_day_gap)).

Definition sample_notice : string :=
  "THREE-DAY NOTICE TO PAY RENT OR QUIT. Notice served on: 01/01/2026. You must pay within three days. Deadline: 01/04/2026".

(* ================================================================== *)
(** * The argument composer *)

Record LegalArgument : Type := mkArgument {
  short_claim : string;
  long_explanation : string
}.

Definition UP003_argument : LegalArgument :=
  mkArgument
    "I did not receive ten full days to either pay the rent owed or move out."
    "Under C.R.S. 13-40-104(1)(d), a landlord must provide at least ten full days of notice before filing an eviction lawsuit. My eviction notice expired before ten full days had passed.".

Definition UP001_argument : LegalArgument :=
  mkArgument
    "I do not owe the rent claimed because I paid the full amount due."
    "A landlord cannot prevail in an eviction case based on nonpayment of rent if the tenant has paid all rent owed, and I am prepared to provide proof of payment.".

Definition UP013_argument : LegalArgument :=
  mkArgument
    "I attempted to pay the full amount of rent owed, but my landlord refused to accept it."
    "If a tenant offers full payment of rent, the landlord must accept it and stop the eviction process, even if a lawsuit has already been filed.".

Definition LEGAL_ARGUMENTS : list (string * LegalArgument) :=
  [ ("UP003", UP003_argument);
    ("UP001", UP001_argument);
    ("UP013", UP013_argument) ].

(** [code in LEGAL_ARGUMENTS] and [LEGAL_ARGUMENTS[code]]. *)
Definition map_contains {V : Type} (m : list (string * V)) (k : string)
  : bool :=
  match map_get m k with
  | Some _ => true
  | None => false
  end.

Definition map_getitem {V : Type} (m : list (string * V)) (k : string)
  : exc V :=
  match map_get m k with
  | Some v => Ok v
  | None => Raise KeyError
  end.

(** [[LEGAL_ARGUMENTS[code] for code in up_codes
      if code in LEGAL_ARGUMENTS][:2]] *)
Definition valid_args (up_codes : list string) : exc (list LegalArgument) :=
  args <- for_each up_codes
            (fun code acc =>
               if map_contains LEGAL_ARGUMENTS code
               then arg <- map_getitem LEGAL_ARGUMENTS code ;;
                    Ok (acc ++ [arg])%list
               else Ok acc)
            [] ;;
  Ok (firstn 2 args).

Definition nl : string := String "010" EmptyString.

(** [f"- {arg['short_claim']} {arg['long_explanation']}"] *)
Definition argument_line (arg : LegalArgument) : string :=
  "- " ++ short_claim arg ++ " " ++ long_explanation arg.

(** The tenant context: a [dict] whose values are shown by [str()];
    a missing key is shown as [None]. *)
Definition tenant_context_t : Type := list (string * string).

Definition shown (v : option string) : string :=
  match v with
  | Some s => s
  | None => "None"
  end.

Definition build_prompt (args : list LegalArgument)
  (tenant_context : tenant_context_t) : string :=
  let argument_text := String.concat nl (map argument_line args) in
  String.concat nl
    [ "";
      "You are helping a tenant draft a clear, professional legal statement";
      "to include in an eviction court filing.";
      "";
      "STRICT CONSTRAINTS:";
      "- Do NOT invent new legal arguments";
      "- Do NOT add facts not explicitly stated";
      "- Do NOT cite additional statutes or case law";
      "- Use respectful, first-person language";
      "- Merge the arguments into one cohesive narrative (no bullets)";
      "";
      "Tenant context:";
      "- State: " ++ shown (map_get tenant_context "state");
      "- Eviction type: " ++ shown (map_get tenant_context "eviction_type");
      "";
      "Legal arguments to include:";
      argument_text;
      "";
      "Write a single well-flowing paragraph explaining why the eviction should not proceed.";
      "" ].

Section Composer.

(** The completion service: a prompt in, generated text or an
    exception out. *)
Variable llm_query_gemini : string -> exc string.

(** The composer returns the list of prompts it handed to
    [llm_query_gemini], in order, and its own outcome. *)
Definition generate_eviction_argument_section_from_up_codes
  (up_codes : list string) (tenant_context : tenant_context_t)
  : list string * exc string :=
  match valid_args up_codes with
  | Raise e => ([], Raise e)
  | Ok args =>
      if negb (nonempty args) then ([], Ok "")
      else
        let prompt := build_prompt args tenant_context in
        ([prompt], llm_query_gemini prompt)
  end.

End Composer.

(* ================================================================== *)
(** * The completion service: [llm_query_gemini]

    The environment and the SDK client are parameters (the module
    builds the client once, at import).  A response is an object with a
    [text] attribute; the client may also hand back a falsy response
    ([None]) or raise.  The function returns the calls it made to the
    client, as (model, contents) pairs, and its outcome. *)

Record gemini_response : Type := mkResponse {
  response_text : option string
}.

(** [bool(s)] for an optional string: neither [None] nor empty. *)
Definition truthy (s : option string) : bool :=
  match s with
  | Some (String _ _) => true
  | _ => false
  end.

Definition EnvironmentError (msg : string) : py_exception :=
  OtherError ("EnvironmentError: " ++ msg).

(** [RuntimeError(...)]; where the source formats a Python object into
    the message, the message stops before it. *)
Definition RuntimeError (msg : string) : py_exception :=
  OtherError ("RuntimeError: " ++ msg).

Definition FileNotFoundError (msg : string) : py_exception :=
  OtherError ("FileNotFoundError: " ++ msg).

Definition DEFAULT_MODEL : string := "gemini-2.5-flash".

Section Gemini.

(** [os.getenv] *)
Variable getenv : string -> option string.

(** [_GEMINI_CLIENT.models.generate_content(model=..., contents=...)] *)
Variable generate_content : string -> string -> exc (option gemini_response).

Definition llm_query_gemini (prompt model : string)
  : list (string * string) * exc string :=
  if negb (truthy (getenv "GEMINI_API_KEY"))
  then ([], Raise (EnvironmentError
                     "Missing GEMINI_API_KEY environment variable."))
  else
    match generate_content model prompt with
    | Raise e => ([(model, prompt)], Raise e)
    | Ok response =>
        match response with
        | Some r =>
            match response_text r with
            | Some (String c t) => ([(model, prompt)], Ok (String c t))
            | _ => ([(model, prompt)],
                    Raise (RuntimeError "Empty Gemini response: "))
            end
        | None => ([(model, prompt)],
                   Raise (RuntimeError "Empty Gemini response: "))
        end
    end.

(** The composer with [llm_query_gemini(prompt)] as its service: the
    model argument takes its default. *)
Definition compose_with_gemini (up_codes : list string)
  (tenant_context : tenant_context_t) : list string * exc string :=
  generate_eviction_argument_section_from_up_codes
    (fun prompt => snd (llm_query_gemini prompt DEFAULT_MODEL))
    up_codes tenant_context.

End Gemini.

(* ================================================================== *)
(** * Text extraction: [ocr_extract_text]

    The file system and the two OCR libraries are parameters: each
    library block either fails on import, fails otherwise, or returns.
    The warning printed when the first library fails otherwise is left
    out. *)

Inductive library_call (A : Type) : Type :=
| ImportFailed
| CallFailed (msg : string)
| Returned (a : A).

Arguments ImportFailed {A}.
Arguments CallFailed {A} msg.
Arguments Returned {A} a.

(** [s.lstrip()], [s.rstrip()], [s.strip()]: white space is what
    [str.isspace] accepts, the characters of [\s]. *)
Fixpoint lstrip (s : string) : string :=
  match s with
  | String c s' => if is_space c then lstrip s' else s
  | EmptyString => EmptyString
  end.

Fixpoint rstrip (s : string) : string :=
  match s with
  | String c s' =>
      match rstrip s' with
      | EmptyString => if is_space c then EmptyString else String c EmptyString
      | r => String c r
      end
  | EmptyString => EmptyString
  end.

Definition strip (s : string) : string := rstrip (lstrip s).

Definition ocr_extract_text
  (path_exists : string -> bool)
  (image_to_string : string -> library_call string)
  (readtext : string -> library_call (list string))
  (image_path : string) : exc string :=
  if negb (path_exists image_path)
  then Raise (FileNotFoundError ("Image not found: " ++ image_path))
  else
    match image_to_string image_path with
    | Returned text =>
        Ok (match text with
            | String _ _ => strip text
            | EmptyString => ""
            end)
    | ImportFailed | CallFailed _ =>
        match readtext image_path with
        | Returned results =>
            Ok (if nonempty results
                then strip (String.concat nl results)
                else "")
        | ImportFailed =>
            Raise (RuntimeError
                     (String.concat nl
                        [ "No OCR backend available.";
                          "Install one of:";
                          "  - pip install pillow pytesseract  (and install tesseract system binary)";
                          "  - pip install easyocr";
                          "" ]))
        | CallFailed e =>
            Raise (RuntimeError ("OCR failed with easyocr: " ++ e))
        end
    end.

(* ================================================================== *)
(** * Vocabulary of the statements *)

(** [a] falls on an earlier calendar day than [b]. *)
Definition earlier (a b : datetime) : Prop := datetime_ltb a b = true.

(** Every character of [s] satisfies [p]. *)
Fixpoint all_chars (p : ascii -> bool) (s : string) : bool :=
  match s with
  | EmptyString => true
  | String c s' => p c && all_chars p s'
  end.

(** The dictionary keeps one entry per calendar day, filed under the
    day of its value. *)
Definition keyed_by_day (d : date_dict) : Prop :=
  NoDup (map fst d) /\ forall k v, In (k, v) d -> k = date_of v.

(** The arguments one code contributes to the selection. *)
Definition argument_of (code : string) : list LegalArgument :=
  match map_get LEGAL_ARGUMENTS code with
  | Some arg => [arg]
  | None => []
  end.

(** [s] holds no decimal digit. *)
Definition digit_free (s : string) : Prop :=
  all_chars (fun c => negb (is_decimal c)) s = true.

(** A day of the calendar of the years 1 to 9999. *)
Definition valid_date (d : datetime) : Prop :=
  MINYEAR <= year d <= MAXYEAR /\
  1 <= month d <= 12 /\
  1 <= day d <= _days_in_month (year d) (month d).

(** The lower-case image of a match: groups and cursor. *)
Definition lower_groups (gd : groupdict) : groupdict :=
  map (fun kv => (fst kv, lower (snd kv))) gd.

Definition lower_cursor (st : cursor) : cursor :=
  mkCursor (pos st) (option_map lower_char (prev st)) (lower (rest st))
           (lower_groups (groups st)).

(** The integers [from], [from + 1], ..., [n] of them. *)
Fixpoint zrange (n : nat) (from : Z) : list Z :=
  match n with
  | O => []
  | S n' => from :: zrange n' (from + 1)
  end.

(** ["%0<w>d" % n] has [w] characters and [int] reads [n] back. *)
Definition format_reads_back (w : nat) (n : Z) : bool :=
  (String.length (format_0d w n) =? w)%nat
  && match int (format_0d w n) with
     | Ok n' => n' =? n
     | Raise _ => false
     end.

(** Equality of two arguments, and the number of times an argument or
    a code occurs in a list. *)
Definition argument_eqb (a b : LegalArgument) : bool :=
  String.eqb (short_claim a) (short_claim b)
  && String.eqb (long_explanation a) (long_explanation b).

Definition count_argument (arg : LegalArgument) (l : list LegalArgument)
  : nat :=
  List.length (filter (argument_eqb arg) l).

Definition count_code (code : string) (l : list string) : nat :=
  List.length (filter (String.eqb code) l).

(** [a] and [b] are the same character, or the two cases of one of the
    letters A to Z. *)
Definition is_ascii_letter (c : ascii) : bool :=
  in_range 65 90 (ord c) || in_range 97 122 (ord c).

Definition same_char_up_to_case (a b : ascii) : bool :=
  Ascii.eqb a b
  || (is_ascii_letter a && is_ascii_letter b
      && Ascii.eqb (lower_char a) (lower_char b)).

(** [s] and [t] differ at most in the case of letters A to Z. *)
Fixpoint same_up_to_ascii_case (s t : string) : bool :=
  match s, t with
  | EmptyString, EmptyString => true
  | String a s', String b t' =>
      same_char_up_to_case a b && same_up_to_ascii_case s' t'
  | _, _ => false
  end.

(* ================================================================== *)
(** * Properties of the loops *)

Lemma nonempty_length {A : Type} (l : list A) :
  (0 <? Z.of_nat (List.length l)) = nonempty l.
Proof.
  destruct l as [|x l]; [reflexivity|].
  simpl List.length. apply Z.ltb_lt. lia.
Qed.

(** A loop whose body only appends to the accumulator never raises and
    appends the pieces in order. *)
Lemma for_each_appends {A B : Type} (f : A -> list B)
  (body : A -> list B -> exc (list B)) (l : list A) :
  (forall x, In x l -> forall acc, body x acc = Ok (acc ++ f x)%list) ->
  forall acc, for_each l body acc = Ok (acc ++ flat_map f l)%list.
Proof.
  induction l as [|x l IH]; intros Hbody acc; simpl.
  - now rewrite app_nil_r.
  - rewrite (Hbody x (or_introl eq_refl)). simpl.
    rewrite IH by (intros y Hy; apply Hbody; now right).
    now rewrite app_assoc.
Qed.

Lemma in_range_iff (a b n : nat) :
  In n (range a b) <-> (a <= n < b)%nat.
Proof. unfold range. rewrite in_seq. lia. Qed.

Lemma list_getitem_nth {A : Type} (l : list A) (i : nat) (d : A) :
  (i < List.length l)%nat -> list_getitem l i = Ok (nth i l d).
Proof.
  intros Hi. unfold list_getitem.
  now rewrite (nth_error_nth' l d Hi).
Qed.

Section GapSearch.

Variable dates : list datetime.
Variable d0 : datetime.

Let at_ (i : nat) : date := date_of (nth i dates d0).
Let gap (i j : nat) : Z := Z.abs (days_between (at_ j) (at_ i)).
Let pair_of (ij : nat * nat) : GapPair :=
  (isoformat (at_ (fst ij)), isoformat (at_ (snd ij)), 3).
Let hits_of (i : nat) : list nat :=
  filter (fun j => gap i j =? 3) (range (i + 1) (List.length dates)).
Let idx : list (nat * nat) :=
  flat_map (fun i => map (pair i) (hits_of i))
           (range 0 (List.length dates)).

Lemma gap_step_appends (i j : nat) (pairs : list GapPair) :
  (i < List.length dates)%nat -> (j < List.length dates)%nat ->
  gap_step dates i j pairs =
  Ok (pairs ++ (if gap i j =? 3 then [pair_of (i, j)] else []))%list.
Proof.
  intros Hi Hj. unfold gap_step.
  rewrite (list_getitem_nth dates d0 Hj), (list_getitem_nth dates d0 Hi).
  simpl. fold (at_ i) (at_ j) (gap i j).
  destruct (gap i j =? 3) eqn:E.
  - apply Z.eqb_eq in E. unfold pair_of. simpl. now rewrite E.
  - now rewrite app_nil_r.
Qed.

Lemma inner_loop_appends (i : nat) (pairs : list GapPair) :
  (i < List.length dates)%nat ->
  for_each (range (i + 1) (List.length dates)) (gap_step dates i) pairs =
  Ok (pairs ++ map pair_of (map (pair i) (hits_of i)))%list.
Proof.
  intros Hi.
  rewrite (for_each_appends
             (fun j => if gap i j =? 3 then [pair_of (i, j)] else [])).
  - f_equal. f_equal. unfold hits_of.
    induction (range (i + 1) (List.length dates)) as [|j l IH]; simpl.
    + reflexivity.
    + destruct (gap i j =? 3); simpl; now rewrite IH.
  - intros j Hj acc. apply in_range_iff in Hj.
    apply gap_step_appends; lia.
Qed.

Lemma gap_search_indices : gap_search dates = Ok (map pair_of idx).
Proof.
  unfold gap_search.
  rewrite (for_each_appends
             (fun i => map pair_of (map (pair i) (hits_of i)))).
  - simpl. f_equal. unfold idx.
    induction (range 0 (List.length dates)) as [|i l IH]; simpl.
    + reflexivity.
    + now rewrite map_app, IH.
  - intros i Hi acc. apply in_range_iff in Hi.
    apply inner_loop_appends; lia.
Qed.

Lemma in_idx (i j : nat) :
  In (i, j) idx <->
  (i < j < List.length dates)%nat /\ gap i j = 3.
Proof.
  unfold idx. rewrite in_flat_map. split.
  - intros (i' & Hi' & Hin). apply in_map_iff in Hin.
    destruct Hin as (j' & Heq & Hj'). inversion Heq; subst i' j'.
    unfold hits_of in Hj'. apply filter_In in Hj'.
    destruct Hj' as [Hr Hg]. apply in_range_iff in Hr.
    apply Z.eqb_eq in Hg. split; [lia | exact Hg].
  - intros [Hlt Hg]. exists i. split.
    + apply in_range_iff. lia.
    + apply in_map. unfold hits_of. apply filter_In. split.
      * apply in_range_iff. lia.
      * now apply Z.eqb_eq.
Qed.

Lemma NoDup_idx : NoDup idx.
Proof.
  unfold idx, range.
  generalize (List.length dates - 0)%nat as n. generalize 0%nat as a.
  intros a n. revert a.
  induction n as [|n IH]; intros a; simpl.
  - constructor.
  - apply NoDup_app.
    + apply Finite.Injective_map_NoDup.
      * intros x y H. now inversion H.
      * unfold hits_of. apply NoDup_filter, seq_NoDup.
    + apply IH.
    + intros [i j] H1 H2. apply in_map_iff in H1.
      destruct H1 as (j' & Heq & _). inversion Heq; subst.
      apply in_flat_map in H2. destruct H2 as (i' & Hi' & Hin).
      apply in_seq in Hi'. apply in_map_iff in Hin.
      destruct Hin as (j'' & Heq' & _). inversion Heq'. lia.
Qed.

End GapSearch.

(* ================================================================== *)
(** * Properties of the calendar order, the dictionary and the sort *)

Lemma date_ltb_lex (a b : date) :
  date_ltb a b = true <->
  (let '(y1, m1, d1) := a in
   let '(y2, m2, d2) := b in
   y1 < y2 \/ (y1 = y2 /\ (m1 < m2 \/ (m1 = m2 /\ d1 < d2)))).
Proof.
  destruct a as [[y1 m1] d1], b as [[y2 m2] d2]. unfold date_ltb.
  rewrite !orb_true_iff, !andb_true_iff, !orb_true_iff, !andb_true_iff.
  rewrite !Z.ltb_lt, !Z.eqb_eq. tauto.
Qed.

Lemma date_eqb_eq (a b : date) : date_eqb a b = true <-> a = b.
Proof.
  destruct a as [[y1 m1] d1], b as [[y2 m2] d2]. unfold date_eqb.
  rewrite !andb_true_iff, !Z.eqb_eq.
  split; [intros [[-> ->] ->]; reflexivity | intros H; inversion H; auto].
Qed.

Lemma date_of_inj (a b : datetime) : date_of a = date_of b -> a = b.
Proof.
  destruct a, b. unfold date_of. simpl. intros H. now inversion H.
Qed.

Lemma earlier_irrefl (a b : datetime) :
  earlier a b -> date_of a <> date_of b.
Proof.
  unfold earlier, datetime_ltb. intros H E. rewrite E in H.
  apply date_ltb_lex in H. destruct (date_of b) as [[y m] d]. lia.
Qed.

Lemma earlier_trans (a b c : datetime) :
  earlier a b -> earlier b c -> earlier a c.
Proof.
  unfold earlier, datetime_ltb. rewrite !date_ltb_lex.
  destruct (date_of a) as [[y1 m1] d1], (date_of b) as [[y2 m2] d2],
           (date_of c) as [[y3 m3] d3]. lia.
Qed.

Lemma earlier_total (a b : datetime) :
  datetime_ltb a b = false -> a <> b -> earlier b a.
Proof.
  intros Hab Hne.
  assert (Hd : date_of a <> date_of b)
    by (intros E; apply Hne, date_of_inj, E).
  assert (Hn : ~ date_ltb (date_of a) (date_of b) = true)
    by (unfold datetime_ltb in Hab; rewrite Hab; discriminate).
  unfold earlier, datetime_ltb. rewrite date_ltb_lex in *.
  destruct (date_of a) as [[y1 m1] d1], (date_of b) as [[y2 m2] d2].
  assert (~ (y1 = y2 /\ m1 = m2 /\ d1 = d2))
    by (intros (-> & -> & ->); now apply Hd).
  lia.
Qed.

Lemma insort_In (x y : datetime) (l : list datetime) :
  In y (insort x l) <-> y = x \/ In y l.
Proof.
  induction l as [|z l IH]; simpl.
  - intuition.
  - destruct (datetime_ltb x z); simpl; [|rewrite IH]; intuition.
Qed.

Lemma insort_sorted (x : datetime) (l : list datetime) :
  StronglySorted earlier l -> ~ In x l ->
  StronglySorted earlier (insort x l).
Proof.
  induction l as [|z l IH]; intros Hs Hx; simpl.
  - repeat constructor.
  - inversion Hs as [|? ? Hl Hz]; subst.
    destruct (datetime_ltb x z) eqn:E.
    + constructor; [exact Hs|]. constructor; [exact E|].
      rewrite Forall_forall in *. intros w Hw.
      eapply earlier_trans; [exact E | now apply Hz].
    + constructor.
      * apply IH; [exact Hl | intros H; apply Hx; now right].
      * rewrite Forall_forall in *. intros w Hw.
        apply insort_In in Hw. destruct Hw as [-> | Hw].
        -- apply earlier_total; [exact E|].
           intros ->. apply Hx. now left.
        -- now apply Hz.
Qed.

Lemma fold_insort (l acc : list datetime) :
  StronglySorted earlier acc -> NoDup (acc ++ l) ->
  StronglySorted earlier (fold_left (fun a x => insort x a) l acc) /\
  (forall y, In y (fold_left (fun a x => insort x a) l acc) <->
             In y acc \/ In y l).
Proof.
  revert acc. induction l as [|x l IH]; intros acc Hs Hn; simpl.
  - split; [exact Hs | intuition].
  - assert (Hx : ~ In x acc).
    { intros H. apply NoDup_remove_2 in Hn. apply Hn.
      apply in_or_app. now left. }
    destruct (IH (insort x acc)) as [H1 H2].
    + now apply insort_sorted.
    + apply NoDup_remove in Hn. destruct Hn as [Hn Hnx].
      clear - Hn Hnx Hx.
      assert (Hp : Permutation (insort x acc ++ l) (x :: acc ++ l)).
      { change (x :: acc ++ l)%list with ((x :: acc) ++ l)%list.
        apply Permutation_app_tail.
        clear. induction acc as [|z acc IH]; simpl.
        - reflexivity.
        - destruct (datetime_ltb x z); [reflexivity|].
          rewrite IH. apply perm_swap. }
      apply (Permutation_NoDup (Permutation_sym Hp)).
      now constructor.
    + split; [exact H1|]. intros y. rewrite H2, insort_In. intuition.
Qed.

Lemma sorted_spec (l : list datetime) :
  NoDup l ->
  StronglySorted earlier (sorted l) /\
  (forall y, In y (sorted l) <-> In y l).
Proof.
  intros Hn. destruct (@fold_insort l []) as [H1 H2].
  - constructor.
  - exact Hn.
  - split; [exact H1|]. intros y. unfold sorted. rewrite H2. simpl. tauto.
Qed.

Lemma strictly_sorted_days (l : list datetime) :
  StronglySorted earlier l -> NoDup (map date_of l).
Proof.
  induction 1 as [|a l Hs IH Ha]; simpl; constructor; [|exact IH].
  intros Hin. apply in_map_iff in Hin. destruct Hin as (b & Hb & Hin).
  rewrite Forall_forall in Ha. apply (earlier_irrefl (Ha b Hin)).
  now symmetry.
Qed.

Lemma dict_set_In (k : date) (v : datetime) (d : date_dict) kv :
  In kv (dict_set k v d) -> kv = (k, v) \/ In kv d.
Proof.
  induction d as [|[k' v'] d IH]; simpl.
  - intuition.
  - destruct (date_eqb k' k) eqn:E; simpl.
    + apply date_eqb_eq in E. subst k'. intuition.
    + intuition.
Qed.

Lemma dict_set_keyed (x : datetime) (d : date_dict) :
  keyed_by_day d -> keyed_by_day (dict_set (date_of x) x d).
Proof.
  intros [Hn Hk]. split.
  - clear Hk. induction d as [|[k' v'] d IH]; simpl.
    + repeat constructor. intros [].
    + inversion Hn as [|? ? Hk' Hn']; subst.
      destruct (date_eqb k' (date_of x)) eqn:E; simpl.
      * exact Hn.
      * constructor; [|now apply IH].
        intros Hin. apply in_map_iff in Hin.
        destruct Hin as ([k'' v''] & Hf & Hin). simpl in Hf. subst k''.
        apply dict_set_In in Hin. destruct Hin as [Heq | Hin].
        -- inversion Heq; subst.
           assert (date_eqb (date_of x) (date_of x) = true)
             by now apply date_eqb_eq.
           congruence.
        -- apply Hk'. apply in_map_iff. now exists (k', v'').
  - intros k v Hin. apply dict_set_In in Hin. destruct Hin as [Heq | Hin].
    + now inversion Heq.
    + now apply Hk.
Qed.

Lemma dict_set_keeps (x y : datetime) (d : date_dict) :
  In (date_of x, x) d -> In (date_of x, x) (dict_set (date_of y) y d).
Proof.
  induction d as [|[k' v'] d IH]; simpl; [tauto|].
  destruct (date_eqb k' (date_of y)) eqn:E; simpl.
  - apply date_eqb_eq in E. intros [Heq | Hin]; [left | now right].
    inversion Heq; subst. f_equal. apply date_of_inj. congruence.
  - intuition.
Qed.

Lemma dict_set_has (y : datetime) (d : date_dict) :
  In (date_of y, y) (dict_set (date_of y) y d).
Proof.
  induction d as [|[k' v'] d IH]; simpl; [now left|].
  destruct (date_eqb k' (date_of y)) eqn:E; simpl.
  - apply date_eqb_eq in E. subst. now left.
  - now right.
Qed.

Lemma dict_by_day_spec (l : list datetime) :
  keyed_by_day (dict_by_day l) /\
  (forall x, In (date_of x, x) (dict_by_day l) <-> In x l).
Proof.
  unfold dict_by_day.
  assert (G : forall acc,
             keyed_by_day acc ->
             keyed_by_day
               (fold_left (fun a d => dict_set (date_of d) d a) l acc) /\
             (forall x,
                In (date_of x, x)
                   (fold_left (fun a d => dict_set (date_of d) d a) l acc)
                <-> In (date_of x, x) acc \/ In x l)).
  { induction l as [|y l IH]; intros acc Hacc; simpl.
    - split; [exact Hacc | intuition].
    - destruct (IH (dict_set (date_of y) y acc)) as [H1 H2].
      + now apply dict_set_keyed.
      + split; [exact H1|]. intros x. rewrite H2. split.
        * intros [Hin | Hin]; [|now right; right].
          apply dict_set_In in Hin. destruct Hin as [Heq | Hin].
          -- right. left. inversion Heq as [[E1 E2]]. now symmetry.
          -- now left.
        * intros [Hin | [-> | Hin]].
          -- left. now apply dict_set_keeps.
          -- left. apply dict_set_has.
          -- now right. }
  destruct (G []) as [H1 H2].
  - split; [constructor | intros k v []].
  - split; [exact H1|]. intros x. rewrite H2. simpl. tauto.
Qed.

Lemma dict_values_spec (l : list datetime) :
  NoDup (dict_values (dict_by_day l)) /\
  (forall x, In x (dict_values (dict_by_day l)) <-> In x l).
Proof.
  destruct (dict_by_day_spec l) as [[Hn Hk] Hin]. split.
  - unfold dict_values. apply (NoDup_map_inv date_of).
    rewrite map_map.
    erewrite map_ext_in; [exact Hn|].
    intros [k v] H. simpl. symmetry. now apply Hk.
  - intros x. rewrite <- Hin. unfold dict_values. rewrite in_map_iff. split.
    + intros ([k v] & Hs & H). simpl in Hs. subst v.
      now rewrite <- (Hk _ _ H).
    + intros H. now exists (date_of x, x).
Qed.

(* ================================================================== *)
(** * Properties of the matcher *)

Lemma advance_groups (n : nat) : forall st, groups (advance n st) = groups st.
Proof.
  induction n as [|n IH]; intros st; simpl; [reflexivity|].
  destruct (rest st); [reflexivity|]. now rewrite IH.
Qed.

Lemma advance_pos (n : nat) :
  forall st, (n <= String.length (rest st))%nat ->
             pos (advance n st) = (pos st + n)%nat.
Proof.
  induction n as [|n IH]; intros st Hn; simpl; [lia|].
  destruct (rest st) as [|c s'] eqn:E; simpl in Hn; [lia|].
  rewrite IH; simpl; lia.
Qed.

Lemma run_le_length (k : charclass) (s : string) :
  (run k s <= String.length s)%nat.
Proof.
  induction s as [|c s IH]; simpl; [lia|].
  destruct (in_class k c); lia.
Qed.

Lemma take_run (k : charclass) (n : nat) :
  forall s, (n <= run k s)%nat ->
            String.length (take n s) = n /\
            all_chars (in_class k) (take n s) = true.
Proof.
  induction n as [|n IH]; intros s Hn.
  - destruct s; simpl; auto.
  - destruct s as [|c s]; simpl in *; [lia|].
    destruct (in_class k c) eqn:E; [|lia].
    destruct (IH s) as [H1 H2]; [lia|].
    rewrite H1, H2. auto.
Qed.

Lemma mtch_Cat_In (r1 r2 : regex) (st st' : cursor) :
  In st' (mtch (Cat r1 r2) st) <->
  exists mid, In mid (mtch r1 st) /\ In st' (mtch r2 mid).
Proof. simpl. apply in_flat_map. Qed.

Lemma mtch_Boundary_In (st st' : cursor) :
  In st' (mtch Boundary st) -> st' = st.
Proof.
  simpl. destruct (xorb _ _); simpl; [|tauto].
  intros [H | []]. now symmetry.
Qed.

Lemma mtch_Cls_In (k : charclass) (lo : nat) (hi : option nat)
  (st st' : cursor) :
  In st' (mtch (Cls k lo hi) st) ->
  exists n, st' = advance n st /\
            (lo <= n <= run k (rest st))%nat /\
            (forall h, hi = Some h -> (n <= h)%nat).
Proof.
  cbn [mtch]. intros H. apply in_map_iff in H. destruct H as (n & Hn & Hin).
  apply in_rev, in_seq in Hin. exists n. split; [now symmetry|].
  destruct hi as [h|]; cbv zeta in Hin.
  - split; [lia|]. intros h' Hh. inversion Hh; subst. lia.
  - split; [lia|]. discriminate.
Qed.

(** A group that wraps a character class captures between [lo] and
    [hi] characters of that class. *)
Lemma mtch_Named_Cls_In (name : string) (k : charclass) (lo : nat)
  (hi : option nat) (st st' : cursor) :
  In st' (mtch (Named name (Cls k lo hi)) st) ->
  exists v, groups st' = (name, v) :: groups st /\
            (lo <= String.length v)%nat /\
            (forall h, hi = Some h -> (String.length v <= h)%nat) /\
            all_chars (in_class k) v = true.
Proof.
  intros H. change (mtch (Named name (Cls k lo hi)) st)
    with (map (fun s' => set_group name
                           (take (pos s' - pos st) (rest st)) s')
              (mtch (Cls k lo hi) st)) in H.
  apply in_map_iff in H. destruct H as (mid & Hst & Hmid).
  apply mtch_Cls_In in Hmid. destruct Hmid as (n & -> & Hn & Hhi).
  pose proof (run_le_length k (rest st)) as Hlen.
  rewrite advance_pos in Hst by lia.
  replace (pos st + n - pos st)%nat with n in Hst by lia.
  destruct (@take_run k n (rest st)) as [H1 H2]; [lia|].
  exists (take n (rest st)). subst st'. simpl.
  rewrite advance_groups, H1. repeat split; auto; lia.
Qed.

(** The tail [(?P<y>\d{lo,hi})\b] of the three patterns. *)
Lemma year_tail_In (lo hi : nat) (st st' : cursor) :
  In st' (mtch (Cat (Named "y" (Cls Digit lo (Some hi))) (Cat Boundary Empty))
               st) ->
  exists ys, gd_get (groups st') "y" = Some ys /\
             (lo <= String.length ys <= hi)%nat /\
             all_chars is_decimal ys = true.
Proof.
  intros H. apply mtch_Cat_In in H. destruct H as (s1 & H1 & H).
  apply mtch_Cat_In in H. destruct H as (s2 & H2 & H).
  apply mtch_Boundary_In in H2. subst s2.
  simpl in H. destruct H as [<- | []].
  apply mtch_Named_Cls_In in H1. destruct H1 as (v & Hg & Hlo & Hhi & Hd).
  exists v. rewrite Hg. simpl. repeat split; auto.
Qed.

Lemma match_at_In (r : regex) (st st' : cursor) :
  match_at r st = Some st' -> In st' (mtch r st).
Proof.
  unfold match_at. destruct (mtch r st); simpl; [discriminate|].
  intros H. inversion H. now left.
Qed.

Lemma finditer_from_In (r : regex) (gd : groupdict) (s : string) :
  forall skip p pv,
    In gd (finditer_from r skip p pv s) ->
    exists st st', In st' (mtch r st) /\ gd = groups st'.
Proof.
  induction s as [|c s IH]; intros skip p pv H; simpl in H.
  - destruct skip; [|destruct H].
    destruct (match_at r _) as [st'|] eqn:E; [|destruct H].
    destruct H as [<- | []]. eexists _, st'. split; [|reflexivity].
    exact (match_at_In _ _ E).
  - destruct skip.
    + destruct (match_at r _) as [st'|] eqn:E.
      * destruct H as [<- | H]; [|now apply IH in H].
        eexists _, st'. split; [|reflexivity].
        exact (match_at_In _ _ E).
      * now apply IH in H.
    + now apply IH in H.
Qed.

Lemma rx_month_year (st st' : cursor) :
  In st' (mtch rx_month st) ->
  exists ys, gd_get (groups st') "y" = Some ys /\
             String.length ys = 4%nat /\
             all_chars is_decimal ys = true.
Proof.
  unfold rx_month, cat. cbn [fold_right]. intros H.
  do 7 (apply mtch_Cat_In in H; destruct H as (? & _ & H)).
  apply year_tail_In in H. destruct H as (ys & Hy & Hlen & Hd).
  exists ys. repeat split; auto. lia.
Qed.

Lemma rx_numeric_year (sep : ascii) (st st' : cursor) :
  In st' (mtch (rx_numeric sep) st) ->
  exists ys, gd_get (groups st') "y" = Some ys /\
             (2 <= String.length ys <= 4)%nat /\
             all_chars is_decimal ys = true.
Proof.
  unfold rx_numeric, cat. cbn [fold_right]. intros H.
  do 5 (apply mtch_Cat_In in H; destruct H as (? & _ & H)).
  now apply year_tail_In in H.
Qed.

Lemma mtch_Named_In (name : string) (r : regex) (st st' : cursor) :
  In st' (mtch (Named name r) st) ->
  exists mid, In mid (mtch r st) /\
              st' = set_group name (take (pos mid - pos st) (rest st)) mid.
Proof.
  intros H. cbn [mtch] in H. apply in_map_iff in H.
  destruct H as (mid & <- & H). now exists mid.
Qed.

Lemma advance_pos_le (n : nat) :
  forall st, (pos st <= pos (advance n st))%nat.
Proof.
  induction n as [|n IH]; intros st; simpl; [lia|].
  destruct (rest st); [lia|].
  etransitivity; [|apply IH]. simpl. lia.
Qed.

(** A match never ends before the position it started from. *)
Lemma mtch_pos_le (r : regex) :
  forall st st', In st' (mtch r st) -> (pos st <= pos st')%nat.
Proof.
  induction r as [| |c|k lo hi| |r1 IH1 r2 IH2|r1 IH1 r2 IH2|r IH|name r IH];
    intros st st' H.
  - destruct H.
  - destruct H as [<- | []]. lia.
  - cbn [mtch] in H. destruct (rest st) as [|a s'] eqn:E; [destruct H|].
    destruct (lit_matches c a); [|destruct H].
    destruct H as [<- | []]. apply advance_pos_le.
  - apply mtch_Cls_In in H. destruct H as (n & -> & _).
    apply advance_pos_le.
  - apply mtch_Boundary_In in H. subst. lia.
  - apply mtch_Cat_In in H. destruct H as (mid & H1 & H2).
    apply IH1 in H1. apply IH2 in H2. lia.
  - cbn [mtch] in H. apply in_app_or in H. destruct H; auto.
  - cbn [mtch] in H. apply in_app_or in H.
    destruct H as [H | [<- | []]]; auto.
  - apply mtch_Named_In in H. destruct H as (mid & H & ->). simpl. auto.
Qed.

Lemma mtch_Cls_pos (k : charclass) (lo : nat) (hi : option nat)
  (st st' : cursor) :
  In st' (mtch (Cls k lo hi) st) -> (pos st + lo <= pos st')%nat.
Proof.
  intros H. apply mtch_Cls_In in H. destruct H as (n & -> & Hn & _).
  pose proof (run_le_length k (rest st)).
  rewrite advance_pos; lia.
Qed.

(** None of the three date patterns matches the empty string, so
    [finditer] always moves on past a match. *)
Lemma date_patterns_consume (rx : regex) (st st' : cursor) :
  In rx DATE_REGEXES -> In st' (mtch rx st) -> (pos st < pos st')%nat.
Proof.
  intros Hrx H.
  assert (Hnum : forall sep, In st' (mtch (rx_numeric sep) st) ->
                             (pos st < pos st')%nat).
  { clear. intros sep H. unfold rx_numeric, cat in H. cbn [fold_right] in H.
    apply mtch_Cat_In in H. destruct H as (s1 & H1 & H).
    apply mtch_Cat_In in H. destruct H as (s2 & H2 & H).
    apply mtch_Boundary_In in H1. subst s1.
    apply mtch_pos_le in H.
    apply mtch_Named_In in H2. destruct H2 as (mid & H2 & ->).
    apply mtch_Cls_pos in H2. simpl in H. lia. }
  destruct Hrx as [<- | [<- | [<- | []]]];
    [exact (Hnum _ H) | exact (Hnum _ H) |].
  unfold rx_month, cat in H. cbn [fold_right] in H.
  apply mtch_Cat_In in H. destruct H as (s1 & H1 & H).
  apply mtch_Cat_In in H. destruct H as (s2 & H2 & H).
  apply mtch_Cat_In in H. destruct H as (s3 & H3 & H).
  apply mtch_pos_le in H1, H2, H. apply mtch_Cls_pos in H3. lia.
Qed.

(** The search backtracks over [\d{2,4}] to find the closing [\b], and
    gives up where there is none. *)
Example finditer_slash_backtracks :
  finditer rx_slash "12/31/20261 1/2/345" =
  [[("y", "345"); ("d", "2"); ("m", "1")]].
Proof. vm_compute. reflexivity. Qed.

(** Month names match in any case, need a boundary before them and
    white space after them. *)
Example finditer_month_names :
  finditer rx_month
    "SEPTEMBER 3rd 2025; sept 4, 2025; Decembers 5 2025; xMay 6 2025" =
  [[("y", "2025"); ("d", "3"); ("month", "SEPTEMBER")]].
Proof. vm_compute. reflexivity. Qed.

(* ================================================================== *)
(** * Properties of the extraction loops *)

Lemma collect_match_In (gds : list groupdict) (dt : datetime) :
  forall acc,
    In dt (fold_left collect_match gds acc) ->
    In dt acc \/
    exists gd, In gd gds /\ date_of_match gd = Ok (Some dt).
Proof.
  induction gds as [|gd gds IH]; intros acc H; simpl in H; [now left|].
  apply IH in H. destruct H as [H | (gd' & Hin & Hgd)].
  - unfold collect_match in H.
    destruct (date_of_match gd) as [[dt'|]|e] eqn:E; auto.
    apply in_app_or in H. destruct H as [H | [<- | []]]; auto.
    right. exists gd. split; [now left | exact E].
  - right. exists gd'. split; [now right | exact Hgd].
Qed.

(** Every collected date was built from a match of one of the patterns. *)
Lemma matched_dates_In (text : string) (dt : datetime) :
  In dt (matched_dates text) ->
  exists rx gd, In rx DATE_REGEXES /\ In gd (finditer rx text) /\
                date_of_match gd = Ok (Some dt).
Proof.
  unfold matched_dates. generalize DATE_REGEXES as rxs.
  assert (G : forall rxs acc,
             In dt (fold_left
                      (fun dates rx =>
                         fold_left collect_match (finditer rx text) dates)
                      rxs acc) ->
             In dt acc \/
             exists rx gd, In rx rxs /\ In gd (finditer rx text) /\
                           date_of_match gd = Ok (Some dt)).
  { induction rxs as [|rx rxs IH]; intros acc H; simpl in H; [now left|].
    apply IH in H. destruct H as [H | (rx' & gd & H1 & H2 & H3)].
    - apply collect_match_In in H. destruct H as [H | (gd & H1 & H2)]; auto.
      right. exists rx, gd. repeat split; auto. now left.
    - right. exists rx', gd. repeat split; auto. now right. }
  intros rxs H. apply G in H. destruct H as [[] | H]. exact H.
Qed.

Lemma extract_dates_spec (text : string) :
  StronglySorted earlier (extract_dates text) /\
  (forall d, In d (extract_dates text) <-> In d (matched_dates text)).
Proof.
  unfold extract_dates.
  destruct (dict_values_spec (matched_dates text)) as [Hn Hin].
  destruct (sorted_spec Hn) as [Hs Hin'].
  split; [exact Hs|]. intros d. now rewrite Hin', Hin.
Qed.

Ltac bind_inv H :=
  match type of H with
  | bind ?m _ = Ok _ =>
      let E := fresh "E" in
      destruct m eqn:E; simpl in H; [|discriminate H]
  end.

Lemma gd_getitem_Ok (gd : groupdict) (name v : string) :
  gd_getitem gd name = Ok v -> gd_get gd name = Some v.
Proof.
  unfold gd_getitem. destruct (gd_get gd name); intros H; now inversion H.
Qed.

Lemma new_datetime_Ok (y m d : Z) (dt : datetime) :
  new_datetime y m d = Ok dt -> dt = mkDatetime y m d.
Proof.
  unfold new_datetime. destruct (_ && _); intros H; now inversion H.
Qed.

(** The common end of the two branches of [date_of_match]. *)
Lemma build_date_year (gd : groupdict) (mo : Z) (dt : datetime) :
  (ds <- gd_getitem gd "d" ;;
   d <- int ds ;;
   ys <- gd_getitem gd "y" ;;
   y <- int ys ;;
   dt <- new_datetime (_normalize_year y) mo d ;;
   Ok (Some dt)) = Ok (Some dt) ->
  exists ys y, gd_get gd "y" = Some ys /\ int ys = Ok y /\
               year dt = _normalize_year y.
Proof.
  intros H. do 5 bind_inv H. inversion H; subst.
  apply new_datetime_Ok in E3. subst dt.
  apply gd_getitem_Ok in E1. eauto.
Qed.

(** The year of a date built from a match is the normalized value of
    the match's year group. *)
Lemma date_of_match_year (gd : groupdict) (dt : datetime) :
  date_of_match gd = Ok (Some dt) ->
  exists ys y, gd_get gd "y" = Some ys /\ int ys = Ok y /\
               year dt = _normalize_year y.
Proof.
  unfold date_of_match. intros H.
  destruct (gd_get gd "month") as [[|c name]|].
  - do 2 bind_inv H. now apply build_date_year in H.
  - destruct (map_get MONTH_MAP _) as [mo|]; [|discriminate H].
    destruct (mo =? 0); [discriminate H|].
    now apply build_date_year in H.
  - do 2 bind_inv H. now apply build_date_year in H.
Qed.

(* ================================================================== *)
(** * Properties of the argument selection *)

Lemma valid_args_ok (up_codes : list string) :
  valid_args up_codes = Ok (firstn 2 (flat_map argument_of up_codes)).
Proof.
  unfold valid_args.
  rewrite (for_each_appends argument_of); [reflexivity|].
  intros code _ acc. unfold map_contains, map_getitem, argument_of.
  destruct (map_get LEGAL_ARGUMENTS code); simpl; [reflexivity|].
  now rewrite app_nil_r.
Qed.

Lemma arguments_of_valid_codes (up_codes : list string) :
  map Some (flat_map argument_of up_codes) =
  map (map_get LEGAL_ARGUMENTS)
      (filter (map_contains LEGAL_ARGUMENTS) up_codes).
Proof.
  induction up_codes as [|c l IH]; [reflexivity|].
  cbn [flat_map filter]. unfold argument_of at 1, map_contains at 1.
  destruct (map_get LEGAL_ARGUMENTS c) eqn:E; cbn [map app].
  - now rewrite IH, E.
  - exact IH.
Qed.

(* ================================================================== *)
(** * The detection engine: verdict, totality, the sample notice *)

Lemma detect_ok (text : string) :
  let hits := filter (fun kw => contains (lower text) kw) EVICTION_KEYWORDS in
  let explicit :=
    existsb (fun phrase => contains (lower text) phrase) THREE_DAY_PHRASES in
  exists pairs,
    gap_search (extract_dates text) = Ok pairs /\
    detect_eviction_and_3_day_gap text =
    Ok (mkResult (nonempty hits) hits explicit
                 (map (fun d => isoformat (date_of d)) (extract_dates text))
                 pairs
                 (nonempty hits && (explicit || nonempty pairs))).
Proof.
  intros hits explicit.
  pose proof (gap_search_indices (extract_dates text) (mkDatetime 0 0 0))
    as Hg. cbv zeta in Hg.
  eexists. split; [exact Hg|].
  unfold detect_eviction_and_3_day_gap. rewrite Hg. simpl.
  now rewrite nonempty_length.
Qed.

(** C1.  For every text the engine returns a result whose final verdict
    is (keyword hits non-empty) AND (explicit three-day language OR the
    list of 3-day pairs non-empty); with an empty keyword hit list the
    verdict is false, whatever the dates are. *)
Theorem final_verdict_formula :
  forall text : string,
  exists r : DetectionResult,
    detect_eviction_and_3_day_gap text = Ok r /\
    keyword_hits r =
      filter (fun kw => contains (lower text) kw) EVICTION_KEYWORDS /\
    explicit_three_day_language r =
      existsb (fun phrase => contains (lower text) phrase)
              THREE_DAY_PHRASES /\
    gap_search (extract_dates text) = Ok (date_pairs_with_3_day_gap r) /\
    evicted_with_3_day_gap r =
      nonempty (keyword_hits r)
      && (explicit_three_day_language r
          || nonempty (date_pairs_with_3_day_gap r)) /\
    (keyword_hits r = [] -> evicted_with_3_day_gap r = false).
Proof.
  intros text. destruct (detect_ok text) as (pairs & Hg & Hd).
  eexists. split; [exact Hd|]. cbn [keyword_hits explicit_three_day_language
    date_pairs_with_3_day_gap evicted_with_3_day_gap].
  repeat split; auto.
  intros ->. reflexivity.
Qed.

(** A text with a 3-day gap between its dates and no eviction keyword:
    the pair is reported and the verdict is false. *)
Lemma final_verdict_formula_witness :
  exists r : DetectionResult,
    detect_eviction_and_3_day_gap
      "Delivered 01/01/2026, collected 01/04/2026." = Ok r /\
    keyword_hits r = [] /\
    date_pairs_with_3_day_gap r = [("2026-01-01", "2026-01-04", 3)] /\
    evicted_with_3_day_gap r = false.
Proof.
  destruct (final_verdict_formula
              "Delivered 01/01/2026, collected 01/04/2026.")
    as (r & Hr & Hk & _ & Hg & _ & Hv).
  exists r.
  assert (Hk' : keyword_hits r = []) by (rewrite Hk; reflexivity).
  split; [exact Hr|]. split; [exact Hk'|]. split; [|exact (Hv Hk')].
  vm_compute in Hg. now inversion Hg.
Defined.

(** C5.  The engine is total: for every string, the empty one included,
    it returns a result that carries the keyword hits, the explicit
    language flag, the extracted dates and the gap pairs next to the
    verdict. *)
Theorem detection_never_fails :
  (forall text : string,
   exists hits explicit dates pairs,
     hits = filter (fun kw => contains (lower text) kw) EVICTION_KEYWORDS /\
     explicit = existsb (fun phrase => contains (lower text) phrase)
                        THREE_DAY_PHRASES /\
     dates = extract_dates text /\
     gap_search dates = Ok pairs /\
     detect_eviction_and_3_day_gap text =
     Ok (mkResult (nonempty hits) hits explicit
                  (map (fun d => isoformat (date_of d)) dates)
                  pairs
                  (nonempty hits && (explicit || nonempty pairs)))) /\
  detect_eviction_and_3_day_gap "" = Ok (mkResult false [] false [] [] false).
Proof.
  split; [|reflexivity].
  intros text. destruct (detect_ok text) as (pairs & Hg & Hd).
  do 3 eexists. exists pairs. repeat split; eauto.
Qed.

(** Days that do not exist are dropped without an error. *)
Example invalid_days_dropped :
  extract_dates "4/31/2026 2/29/2025 0/1/2026 13/1/2026 2/29/2024" =
  [mkDatetime 2024 2 29].
Proof. vm_compute. reflexivity. Qed.

(** A keyword and two dates nine days apart: no 3-day signal. *)
Example nine_day_gap_is_no_signal :
  detect_eviction_and_3_day_gap
    "Notice to Quit dated 02/01/2025, hearing 02/10/2025" =
  Ok (mkResult true ["notice to quit"] false
               ["2025-02-01"; "2025-02-10"] [] false).
Proof. vm_compute. reflexivity. Qed.

Example unlawful_detainer_alone :
  detect_eviction_and_3_day_gap "UNLAWFUL DETAINER" =
  Ok (mkResult true ["unlawful detainer"] false [] [] false).
Proof. vm_compute. reflexivity. Qed.

(** C3.  The gap search keeps exactly the index pairs [i < j] whose
    dates lie 3 days apart, each of them once, in the order visited; a
    chain of three dates 3 days apart gives two pairs. *)
Theorem gap_search_all_pairs_once :
  (forall (dates : list datetime) (d0 : datetime),
   exists idx : list (nat * nat),
     gap_search dates =
     Ok (map (fun ij =>
                (isoformat (date_of (nth (fst ij) dates d0)),
                 isoformat (date_of (nth (snd ij) dates d0)), 3))
             idx) /\
     NoDup idx /\
     (forall i j,
        In (i, j) idx <->
        (i < j < List.length dates)%nat /\
        Z.abs (days_between (date_of (nth j dates d0))
                            (date_of (nth i dates d0))) = 3)) /\
  gap_search [mkDatetime 2026 1 1; mkDatetime 2026 1 4; mkDatetime 2026 1 7] =
  Ok [("2026-01-01", "2026-01-04", 3); ("2026-01-04", "2026-01-07", 3)].
Proof.
  split; [|reflexivity].
  intros dates d0.
  pose proof (gap_search_indices dates d0) as H1.
  pose proof (NoDup_idx dates d0) as H2.
  pose proof (in_idx dates d0) as H3.
  cbv zeta in H1, H2, H3.
  eexists. split; [exact H1|]. split; [exact H2 | exact H3].
Qed.

(** C2.  For every text the extracted dates are strictly ascending by
    calendar day, no day occurs twice, and they are the days of the
    matches; a day written in several forms is kept once. *)
Theorem extract_dates_strictly_ascending :
  (forall text : string,
     StronglySorted earlier (extract_dates text) /\
     NoDup (map date_of (extract_dates text)) /\
     (forall d, In d (extract_dates text) <-> In d (matched_dates text))) /\
  matched_dates "Due 01/04/2026 (January 4th, 2026; 1-4-26), served Jan 1 2026" =
    [mkDatetime 2026 1 4; mkDatetime 2026 1 4;
     mkDatetime 2026 1 4; mkDatetime 2026 1 1] /\
  extract_dates "Due 01/04/2026 (January 4th, 2026; 1-4-26), served Jan 1 2026" =
    [mkDatetime 2026 1 1; mkDatetime 2026 1 4].
Proof.
  split; [|split; vm_compute; reflexivity].
  intros text. destruct (extract_dates_spec text) as [Hs Hin].
  split; [exact Hs|]. split; [|exact Hin].
  now apply strictly_sorted_days.
Qed.

(** C4 (as the code has it).  On the sample notice the keyword hits are
    exactly ["three-day notice"]; the phrase "within three days" is
    found by the explicit three-day language test, whose list it
    belongs to, not by the keyword list; the extracted dates are
    2026-01-01 and 2026-01-04, the one gap pair is
    ("2026-01-01", "2026-01-04", 3), and the verdict is true. *)
Theorem sample_notice_result :
  detect_eviction_and_3_day_gap sample_notice =
  Ok (mkResult true ["three-day notice"] true
               ["2026-01-01"; "2026-01-04"]
               [("2026-01-01", "2026-01-04", 3)]
               true) /\
  contains (lower sample_notice) "within three days" = true /\
  In "within three days" THREE_DAY_PHRASES /\
  ~ In "within three days" EVICTION_KEYWORDS.
Proof.
  split; [vm_compute; reflexivity|].
  split; [vm_compute; reflexivity|].
  split; [simpl; tauto|].
  simpl. intros H.
  repeat (destruct H as [H | H]; [discriminate H|]). exact H.
Qed.

(** C4 as stated fails: on the sample notice "within three days" is not
    among the keyword hits. *)
Lemma sample_notice_hits_lack_within_three_days :
  ~ (exists r : DetectionResult,
       detect_eviction_and_3_day_gap sample_notice = Ok r /\
       In "three-day notice" (keyword_hits r) /\
       In "within three days" (keyword_hits r) /\
       extracted_dates r = ["2026-01-01"; "2026-01-04"] /\
       date_pairs_with_3_day_gap r = [("2026-01-01", "2026-01-04", 3)] /\
       evicted_with_3_day_gap r = true).
Proof.
  intros (r & Hr & _ & Hin & _).
  vm_compute in Hr. inversion Hr; subst r. simpl in Hin.
  destruct Hin as [H | []]. discriminate H.
Qed.

(* ================================================================== *)
(** * The date extractor: year normalization and the year group *)

(** C8.  A parsed year below 100 is moved to the 2000s and a year of
    100 or more is kept, and this happens before the date is built:
    every extracted date comes from a match whose year group parses to
    some [y], and its year is [y + 2000] when [y < 100], else [y]. *)
Theorem two_digit_years_normalized :
  (forall y : Z, y < 100 -> _normalize_year y = y + 2000) /\
  (forall y : Z, 100 <= y -> _normalize_year y = y) /\
  (forall (text : string) (dt : datetime),
     In dt (extract_dates text) ->
     exists rx gd ys y,
       In rx DATE_REGEXES /\ In gd (finditer rx text) /\
       date_of_match gd = Ok (Some dt) /\
       gd_get gd "y" = Some ys /\ int ys = Ok y /\
       year dt = (if y <? 100 then y + 2000 else y)) /\
  extract_dates "02/29/00, 3-1-99, 4/5/100, 6/7/0101" =
    [mkDatetime 100 4 5; mkDatetime 101 6 7;
     mkDatetime 2000 2 29; mkDatetime 2099 3 1].
Proof.
  split; [|split; [|split; [|vm_compute; reflexivity]]].
  - intros y Hy. unfold _normalize_year.
    destruct (Z.ltb_spec y 100); lia.
  - intros y Hy. unfold _normalize_year.
    destruct (Z.ltb_spec y 100); lia.
  - intros text dt Hin.
    apply extract_dates_spec, matched_dates_In in Hin.
    destruct Hin as (rx & gd & Hrx & Hgd & Hdt).
    destruct (date_of_match_year _ Hdt) as (ys & y & Hys & Hy & Hyear).
    exists rx, gd, ys, y. repeat split; auto.
    rewrite Hyear. unfold _normalize_year.
    destruct (y <? 100); lia.
Qed.

(** The date 2026-01-04 extracted from "Rent due 1/4/26" comes from a
    match whose year group parses to a value below 100. *)
Lemma two_digit_years_normalized_witness :
  In (mkDatetime 2026 1 4) (extract_dates "Rent due 1/4/26") /\
  exists rx gd ys y,
    In rx DATE_REGEXES /\ In gd (finditer rx "Rent due 1/4/26") /\
    date_of_match gd = Ok (Some (mkDatetime 2026 1 4)) /\
    gd_get gd "y" = Some ys /\ int ys = Ok y /\
    2026 = (if y <? 100 then y + 2000 else y).
Proof.
  assert (Hin : In (mkDatetime 2026 1 4) (extract_dates "Rent due 1/4/26"))
    by (vm_compute; now left).
  split; [exact Hin|].
  destruct two_digit_years_normalized as (_ & _ & Hdt & _).
  exact (Hdt "Rent due 1/4/26" (mkDatetime 2026 1 4) Hin).
Defined.

(** C10 (as the code has it).  A match of the month-name pattern has a
    year group of exactly four digits, so "January 4, 26" yields no
    date; the numeric patterns have a year group of two to four digits,
    so a year group shorter than four digits comes from one of them.
    A four-digit group with leading zeros still parses below 100:
    "January 4, 0026" yields 2026-01-04 through the month-name
    pattern. *)
Theorem month_name_year_group_has_four_digits :
  (forall (text : string) (gd : groupdict),
     In gd (finditer rx_month text) ->
     exists ys, gd_get gd "y" = Some ys /\
                String.length ys = 4%nat /\
                all_chars is_decimal ys = true) /\
  (forall (sep : ascii) (text : string) (gd : groupdict),
     In gd (finditer (rx_numeric sep) text) ->
     exists ys, gd_get gd "y" = Some ys /\
                (2 <= String.length ys <= 4)%nat /\
                all_chars is_decimal ys = true) /\
  (forall (text : string) (rx : regex) (gd : groupdict) (ys : string),
     In rx DATE_REGEXES -> In gd (finditer rx text) ->
     gd_get gd "y" = Some ys -> (String.length ys < 4)%nat ->
     rx = rx_slash \/ rx = rx_dash) /\
  extract_dates "January 4, 26" = [] /\
  extract_dates "1/4/26" = [mkDatetime 2026 1 4] /\
  extract_dates "1-4-26" = [mkDatetime 2026 1 4] /\
  extract_dates "January 4, 0026" = [mkDatetime 2026 1 4].
Proof.
  assert (Hmonth : forall text gd,
             In gd (finditer rx_month text) ->
             exists ys, gd_get gd "y" = Some ys /\
                        String.length ys = 4%nat /\
                        all_chars is_decimal ys = true).
  { intros text gd H. apply finditer_from_In in H.
    destruct H as (st & st' & Hin & ->). now apply rx_month_year in Hin. }
  split; [exact Hmonth|].
  split.
  { intros sep text gd H. apply finditer_from_In in H.
    destruct H as (st & st' & Hin & ->).
    now apply rx_numeric_year in Hin. }
  split; [|repeat split; vm_compute; reflexivity].
  intros text rx gd ys Hrx Hgd Hys Hlen.
  destruct Hrx as [<- | [<- | [<- | []]]]; auto.
  destruct (Hmonth _ _ Hgd) as (ys' & Hys' & Hlen' & _).
  rewrite Hys in Hys'. inversion Hys'; subst. lia.
Qed.

(** On "Signed 1/4/26" the slash pattern captures the year group "26". *)
Lemma month_name_year_group_witness :
  exists gd ys,
    In gd (finditer rx_slash "Signed 1/4/26") /\
    gd_get gd "y" = Some ys /\ String.length ys = 2%nat /\
    (rx_slash = rx_slash \/ rx_slash = rx_dash).
Proof.
  destruct month_name_year_group_has_four_digits as (_ & _ & Hshort & _).
  exists [("y", "26"); ("d", "4"); ("m", "1")], "26".
  assert (Hgd : In [("y", "26"); ("d", "4"); ("m", "1")]
                   (finditer rx_slash "Signed 1/4/26"))
    by (vm_compute; now left).
  split; [exact Hgd|]. split; [reflexivity|]. split; [reflexivity|].
  apply (Hshort "Signed 1/4/26" rx_slash
                [("y", "26"); ("d", "4"); ("m", "1")] "26").
  - now left.
  - exact Hgd.
  - reflexivity.
  - simpl. lia.
Defined.

(** C10 as stated fails: the month-name pattern alone reaches the
    normalization to the 2000s.  In "January 4, 0026" neither numeric
    pattern matches, the month-name match has the year group "0026",
    which parses to 26, and the extracted date is 2026-01-04. *)
Lemma month_name_reaches_normalization :
  finditer rx_slash "January 4, 0026" = [] /\
  finditer rx_dash "January 4, 0026" = [] /\
  extract_dates "January 4, 0026" = [mkDatetime 2026 1 4] /\
  ~ (forall (text : string) (gd : groupdict) (ys : string) (y : Z),
       In gd (finditer rx_month text) ->
       gd_get gd "y" = Some ys -> int ys = Ok y ->
       _normalize_year y = y).
Proof.
  split; [vm_compute; reflexivity|].
  split; [vm_compute; reflexivity|].
  split; [vm_compute; reflexivity|].
  intros H.
  specialize (H "January 4, 0026"
                [("y", "0026"); ("d", "4"); ("month", "January")]
                "0026" 26).
  assert (E : _normalize_year 26 = 26).
  { apply H; [vm_compute; now left | reflexivity | reflexivity]. }
  discriminate E.
Qed.

(* ================================================================== *)
(** * The argument composer: selection and the call to the service *)

Lemma no_valid_code_no_argument (up_codes : list string) :
  (forall code, In code up_codes ->
                map_contains LEGAL_ARGUMENTS code = false) ->
  flat_map argument_of up_codes = [].
Proof.
  induction up_codes as [|c l IH]; intros H; [reflexivity|].
  cbn [flat_map]. rewrite IH by (intros code Hc; apply H; now right).
  pose proof (H c (or_introl eq_refl)) as Hc.
  unfold map_contains in Hc. unfold argument_of.
  destruct (map_get LEGAL_ARGUMENTS c); [discriminate Hc | reflexivity].
Qed.

(** C6.  With an empty code list, or one none of whose codes is in the
    lookup table, the composer returns the empty string and hands no
    prompt to the completion service. *)
Theorem no_valid_code_no_generation :
  forall (llm_query_gemini : string -> exc string)
         (up_codes : list string) (tenant_context : tenant_context_t),
    (forall code, In code up_codes ->
                  map_contains LEGAL_ARGUMENTS code = false) ->
    generate_eviction_argument_section_from_up_codes
      llm_query_gemini up_codes tenant_context = ([], Ok "").
Proof.
  intros llm up_codes ctx H.
  unfold generate_eviction_argument_section_from_up_codes.
  now rewrite valid_args_ok, (no_valid_code_no_argument _ H).
Qed.

(** The empty list, and a list of two unknown codes, with a service
    that would fail if it were called. *)
Lemma no_valid_code_no_generation_witness :
  generate_eviction_argument_section_from_up_codes
    (fun _ => Raise (OtherError "service called")) [] [] = ([], Ok "") /\
  generate_eviction_argument_section_from_up_codes
    (fun _ => Raise (OtherError "service called")) ["UP999"; "up003"]
    [("state", "Colorado")] = ([], Ok "").
Proof.
  split; apply no_valid_code_no_generation.
  - intros code [].
  - intros code [<- | [<- | []]]; reflexivity.
Defined.

(** When some code is valid the service is called once, with the
    rendered prompt, and its outcome is the composer's. *)
Lemma valid_code_one_generation
  (llm_query_gemini : string -> exc string)
  (up_codes : list string) (tenant_context : tenant_context_t)
  (code : string) :
  In code up_codes -> map_contains LEGAL_ARGUMENTS code = true ->
  exists args prompt,
    valid_args up_codes = Ok args /\
    prompt = build_prompt args tenant_context /\
    generate_eviction_argument_section_from_up_codes
      llm_query_gemini up_codes tenant_context =
    ([prompt], llm_query_gemini prompt).
Proof.
  intros Hin Hc.
  unfold generate_eviction_argument_section_from_up_codes.
  rewrite valid_args_ok.
  assert (Hne : exists a l, flat_map argument_of up_codes = a :: l).
  { induction up_codes as [|c l IH]; [destruct Hin|].
    cbn [flat_map]. destruct Hin as [-> | Hin].
    - unfold argument_of at 1. unfold map_contains in Hc.
      destruct (map_get LEGAL_ARGUMENTS code); [|discriminate Hc].
      simpl. eauto.
    - destruct (IH Hin) as (a & l' & E). rewrite E.
      destruct (argument_of c); simpl; eauto. }
  destruct Hne as (a & l & E). rewrite E.
  do 2 eexists. split; [reflexivity|]. split; reflexivity.
Qed.

(** C7.  The composer selects at most two arguments: those of the first
    two valid codes of the input list, in input order, the invalid codes
    being skipped.  For ["UP003"; "UP013"; "UP999"] these are the
    arguments of UP003 and UP013, and both are rendered in the prompt. *)
Theorem at_most_two_arguments_in_input_order :
  (forall up_codes : list string,
   exists args,
     valid_args up_codes = Ok args /\
     (List.length args <= 2)%nat /\
     map Some args =
     map (map_get LEGAL_ARGUMENTS)
         (firstn 2 (filter (map_contains LEGAL_ARGUMENTS) up_codes))) /\
  valid_args ["UP003"; "UP013"; "UP999"] =
    Ok [UP003_argument; UP013_argument] /\
  valid_args ["UP013"; "UP999"; "UP001"; "UP003"] =
    Ok [UP013_argument; UP001_argument] /\
  (forall llm_query_gemini : string -> exc string,
   exists prompt,
     generate_eviction_argument_section_from_up_codes llm_query_gemini
       ["UP003"; "UP013"; "UP999"]
       [("state", "Colorado"); ("eviction_type", "Nonpayment of Rent")] =
     ([prompt], llm_query_gemini prompt) /\
     contains prompt
       (argument_line UP003_argument ++ nl ++ argument_line UP013_argument)
     = true).
Proof.
  split; [|split; [reflexivity | split; [reflexivity|]]].
  - intros up_codes. eexists. split; [apply valid_args_ok|]. split.
    + apply firstn_le_length.
    + now rewrite <- firstn_map, arguments_of_valid_codes, firstn_map.
  - intros llm. eexists. split; [reflexivity|]. vm_compute. reflexivity.
Qed.

Lemma valid_code_cases (code : string) (arg : LegalArgument) :
  map_get LEGAL_ARGUMENTS code = Some arg ->
  (code = "UP003" /\ arg = UP003_argument) \/
  (code = "UP001" /\ arg = UP001_argument) \/
  (code = "UP013" /\ arg = UP013_argument).
Proof.
  unfold LEGAL_ARGUMENTS. cbn [map_get].
  destruct (String.eqb "UP003" code) eqn:E3.
  { apply String.eqb_eq in E3. intros H. inversion H. now left. }
  destruct (String.eqb "UP001" code) eqn:E1.
  { apply String.eqb_eq in E1. intros H. inversion H. right. now left. }
  destruct (String.eqb "UP013" code) eqn:E13; [|discriminate].
  apply String.eqb_eq in E13. intros H. inversion H. right. now right.
Qed.

(** In the table two codes have the same argument only if they are the
    same code. *)
Lemma table_eqb (c1 c2 : string) (a1 a2 : LegalArgument) :
  map_get LEGAL_ARGUMENTS c1 = Some a1 ->
  map_get LEGAL_ARGUMENTS c2 = Some a2 ->
  argument_eqb a1 a2 = String.eqb c1 c2.
Proof.
  intros H1 H2. apply valid_code_cases in H1, H2.
  destruct H1 as [[-> ->] | [[-> ->] | [-> ->]]],
           H2 as [[-> ->] | [[-> ->] | [-> ->]]]; reflexivity.
Qed.

Lemma count_selected (code : string) (arg : LegalArgument) :
  map_get LEGAL_ARGUMENTS code = Some arg ->
  forall (sel : list string) (args : list LegalArgument),
    map Some args = map (map_get LEGAL_ARGUMENTS) sel ->
    count_argument arg args = count_code code sel.
Proof.
  intros Hget sel. unfold count_argument, count_code.
  induction sel as [|c sel IH]; intros [|a args] H; try discriminate H;
    [reflexivity|].
  cbn [map] in H. inversion H as [[Ha Hrest]]. cbn [filter].
  rewrite (@table_eqb code c arg a Hget (eq_sym Ha)).
  destruct (String.eqb code c); cbn [List.length]; now rewrite (IH args).
Qed.

Lemma selection_of_valid_codes (up_codes : list string) :
  map Some (firstn 2 (flat_map argument_of up_codes)) =
  map (map_get LEGAL_ARGUMENTS)
      (firstn 2 (filter (map_contains LEGAL_ARGUMENTS) up_codes)).
Proof. now rewrite <- firstn_map, arguments_of_valid_codes, firstn_map. Qed.

Lemma count_code_valid (code : string) (arg : LegalArgument)
  (up_codes : list string) :
  map_get LEGAL_ARGUMENTS code = Some arg ->
  count_code code (filter (map_contains LEGAL_ARGUMENTS) up_codes) =
  count_code code up_codes.
Proof.
  intros Hget. unfold count_code.
  induction up_codes as [|c l IH]; [reflexivity|]. cbn [filter].
  destruct (map_contains LEGAL_ARGUMENTS c) eqn:E; cbn [filter].
  - destruct (String.eqb code c); cbn [List.length]; now rewrite IH.
  - destruct (String.eqb code c) eqn:Ec; [|exact IH].
    apply String.eqb_eq in Ec. subst c. unfold map_contains in E.
    rewrite Hget in E. discriminate E.
Qed.

(** C9 (as the code has it).  There is no deduplication: before the
    limit the selection holds a valid code's argument once per
    occurrence of the code, in input order, and the limit keeps the
    first two entries; so the argument is included once per occurrence
    among the first two valid entries of the list.  A valid code that
    occurs twice before any other valid code is selected twice and
    fills the limit (["UP003"; "UP003"; "UP013"] drops UP013); after
    another valid code only its first occurrence is kept
    (["UP001"; "UP003"; "UP003"] selects UP001 and UP003 once). *)
Theorem repeated_codes_not_deduplicated :
  (forall (up_codes : list string) (code : string) (arg : LegalArgument),
     map_get LEGAL_ARGUMENTS code = Some arg ->
     exists args,
       valid_args up_codes = Ok args /\
       args = firstn 2 (flat_map argument_of up_codes) /\
       count_argument arg (flat_map argument_of up_codes) =
         count_code code up_codes /\
       count_argument arg args =
         count_code code
           (firstn 2 (filter (map_contains LEGAL_ARGUMENTS) up_codes))) /\
  (forall (code : string) (arg : LegalArgument)
          (before between others : list string),
     map_get LEGAL_ARGUMENTS code = Some arg ->
     (forall c, In c before -> map_contains LEGAL_ARGUMENTS c = false) ->
     (forall c, In c between -> map_contains LEGAL_ARGUMENTS c = false) ->
     valid_args (before ++ code :: between ++ code :: others) =
     Ok [arg; arg]) /\
  valid_args ["UP003"; "UP003"; "UP013"] =
    Ok [UP003_argument; UP003_argument] /\
  valid_args ["UP001"; "UP003"; "UP003"] =
    Ok [UP001_argument; UP003_argument].
Proof.
  split; [|split; [|split; reflexivity]].
  - intros up_codes code arg Hget. eexists.
    split; [apply valid_args_ok|]. split; [reflexivity|]. split.
    + rewrite <- (@count_code_valid code arg up_codes Hget).
      apply (@count_selected code arg Hget). apply arguments_of_valid_codes.
    + apply (@count_selected code arg Hget). apply selection_of_valid_codes.
  - intros code arg before between others H Hb Hm. rewrite valid_args_ok.
    rewrite flat_map_app. cbn [flat_map].
    rewrite flat_map_app. cbn [flat_map].
    rewrite (no_valid_code_no_argument _ Hb),
            (no_valid_code_no_argument _ Hm).
    unfold argument_of at 1 2. rewrite H. reflexivity.
Qed.

(** In ["UP001"; "UP003"; "UP003"] the code UP003 occurs twice, once
    among the first two valid entries, and its argument is selected
    once. *)
Lemma repeated_codes_not_deduplicated_witness :
  exists args,
    valid_args ["UP001"; "UP003"; "UP003"] = Ok args /\
    count_code "UP003" ["UP001"; "UP003"; "UP003"] = 2%nat /\
    count_argument UP003_argument args = 1%nat.
Proof.
  destruct repeated_codes_not_deduplicated as (Hcount & _).
  destruct (Hcount ["UP001"; "UP003"; "UP003"] "UP003" UP003_argument)
    as (args & Hargs & _ & _ & Hsel).
  - reflexivity.
  - exists args. split; [exact Hargs|]. split; [reflexivity|].
    rewrite Hsel. reflexivity.
Defined.

(** C9 as stated fails: in ["UP001"; "UP003"; "UP003"] the valid code
    UP003 occurs twice, but the selection is the arguments of UP001
    and UP003, with the UP003 argument once. *)
Lemma second_occurrence_dropped_by_limit :
  valid_args ["UP001"; "UP003"; "UP003"] =
    Ok [UP001_argument; UP003_argument] /\
  ~ (forall (up_codes : list string) (code : string) (arg : LegalArgument),
       map_get LEGAL_ARGUMENTS code = Some arg ->
       (2 <= count_code code up_codes)%nat ->
       exists args,
         valid_args up_codes = Ok args /\
         count_argument arg args = count_code code up_codes).
Proof.
  split; [reflexivity|]. intros H.
  destruct (H ["UP001"; "UP003"; "UP003"] "UP003" UP003_argument)
    as (args & Hargs & Hcount).
  - reflexivity.
  - vm_compute. lia.
  - vm_compute in Hargs. inversion Hargs; subst args.
    vm_compute in Hcount. discriminate Hcount.
Qed.

(* ================================================================== *)
(** * Further properties: substrings and the keyword test *)

Lemma lower_app (a b : string) : lower (a ++ b) = lower a ++ lower b.
Proof. induction a as [|c a IH]; simpl; [reflexivity | now rewrite IH]. Qed.

Lemma startswith_app (p a b : string) :
  startswith p a = true -> startswith p (a ++ b) = true.
Proof.
  revert a. induction p as [|c p IH]; intros a H; [reflexivity|].
  destruct a as [|d a]; simpl in *; [discriminate H|].
  apply andb_true_iff in H. destruct H as [H1 H2].
  now rewrite H1, IH.
Qed.

Lemma startswith_refl (p : string) : startswith p p = true.
Proof.
  induction p as [|c p IH]; simpl; [reflexivity|].
  now rewrite Ascii.eqb_refl, IH.
Qed.

Lemma contains_app_l (a b p : string) :
  contains a p = true -> contains (a ++ b) p = true.
Proof.
  induction a as [|c a IH]; intros H.
  - simpl in H. rewrite orb_false_r in H.
    destruct p; [|discriminate H]. destruct b; reflexivity.
  - simpl in H. apply orb_true_iff in H. simpl. apply orb_true_iff.
    destruct H as [H | H].
    + left. now apply (@startswith_app p (String c a) b).
    + right. now apply IH.
Qed.

Lemma contains_app_r (a b p : string) :
  contains b p = true -> contains (a ++ b) p = true.
Proof.
  intros H. induction a as [|c a IH]; [exact H|].
  simpl. rewrite IH. apply orb_true_r.
Qed.

Lemma contains_refl (p : string) : contains p p = true.
Proof. destruct p; simpl; [reflexivity|]. now rewrite Ascii.eqb_refl, startswith_refl. Qed.

(** A text embedded in a longer one keeps its substrings. *)
Lemma contains_embedded (before t after p : string) :
  contains (lower t) p = true ->
  contains (lower (before ++ t ++ after)) p = true.
Proof.
  intros H. rewrite !lower_app.
  now apply contains_app_r, contains_app_l.
Qed.

Lemma existsb_impl {A : Type} (f g : A -> bool) (l : list A) :
  (forall x, f x = true -> g x = true) ->
  existsb f l = true -> existsb g l = true.
Proof.
  intros Hfg H. apply existsb_exists in H. destruct H as (x & Hx & Hf).
  apply existsb_exists. exists x. auto.
Qed.

Lemma nonempty_incl {A : Type} (l l' : list A) :
  incl l l' -> nonempty l = true -> nonempty l' = true.
Proof.
  destruct l as [|x l]; [discriminate|]. intros H _.
  destruct l' as [|y l']; [|reflexivity].
  destruct (H x (or_introl eq_refl)).
Qed.

Lemma nonempty_In {A : Type} (x : A) (l : list A) :
  In x l -> nonempty l = true.
Proof. destruct l; [intros [] | reflexivity]. Qed.

(** X1.  The keyword and phrase tests only look for substrings of the
    lower-cased text: wrapping a text in any other text keeps every
    keyword hit, keeps the explicit three-day flag, and so keeps
    [looks_like_eviction]. *)
Theorem keyword_signals_survive_embedding :
  forall before t after : string,
  exists r r' : DetectionResult,
    detect_eviction_and_3_day_gap t = Ok r /\
    detect_eviction_and_3_day_gap (before ++ t ++ after) = Ok r' /\
    incl (keyword_hits r) (keyword_hits r') /\
    (looks_like_eviction r = true -> looks_like_eviction r' = true) /\
    (explicit_three_day_language r = true ->
     explicit_three_day_language r' = true).
Proof.
  intros before t after.
  destruct (detect_ok t) as (pairs & _ & Hd).
  destruct (detect_ok (before ++ t ++ after)) as (pairs' & _ & Hd').
  do 2 eexists. split; [exact Hd|]. split; [exact Hd'|].
  cbn [keyword_hits looks_like_eviction explicit_three_day_language].
  assert (Hincl : incl
            (filter (fun kw => contains (lower t) kw) EVICTION_KEYWORDS)
            (filter (fun kw => contains (lower (before ++ t ++ after)) kw)
                    EVICTION_KEYWORDS)).
  { intros kw Hkw. apply filter_In in Hkw. destruct Hkw as [Hin Hc].
    apply filter_In. split; [exact Hin|]. now apply contains_embedded. }
  split; [exact Hincl|]. split.
  - now apply nonempty_incl.
  - apply existsb_impl. intros p. apply contains_embedded.
Qed.

(** "Evictionist", inside a sentence and in capitals, is a hit for
    "eviction". *)
Lemma keyword_signals_survive_embedding_witness :
  exists r' : DetectionResult,
    detect_eviction_and_3_day_gap ("The " ++ "EVICTIONist" ++ " left.")
    = Ok r' /\
    In "eviction" (keyword_hits r') /\ looks_like_eviction r' = true.
Proof.
  destruct (keyword_signals_survive_embedding "The " "EVICTIONist" " left.")
    as (r & r' & Hr & Hr' & Hincl & Hlooks & _).
  exists r'. split; [exact Hr'|].
  vm_compute in Hr. inversion Hr; subst r. split.
  - apply Hincl. now left.
  - now apply Hlooks.
Defined.

(** X2.  A phrase that is both an eviction keyword and an explicit
    three-day phrase decides the verdict alone: a text that holds it,
    in any case and anywhere, is classified true whatever its dates. *)
Theorem shared_phrase_decides_verdict :
  forall before phrase after : string,
    In (lower phrase) EVICTION_KEYWORDS ->
    In (lower phrase) THREE_DAY_PHRASES ->
    exists r : DetectionResult,
      detect_eviction_and_3_day_gap (before ++ phrase ++ after) = Ok r /\
      In (lower phrase) (keyword_hits r) /\
      explicit_three_day_language r = true /\
      evicted_with_3_day_gap r = true.
Proof.
  intros before phrase after Hk Hp.
  destruct (detect_ok (before ++ phrase ++ after)) as (pairs & _ & Hd).
  eexists. split; [exact Hd|].
  cbn [keyword_hits explicit_three_day_language evicted_with_3_day_gap].
  assert (Hc : contains (lower (before ++ phrase ++ after)) (lower phrase)
               = true)
    by (apply contains_embedded, contains_refl).
  assert (Hhit : In (lower phrase)
                    (filter (fun kw => contains
                                         (lower (before ++ phrase ++ after)) kw)
                            EVICTION_KEYWORDS))
    by (apply filter_In; auto).
  assert (He : existsb (fun p => contains
                                   (lower (before ++ phrase ++ after)) p)
                       THREE_DAY_PHRASES = true)
    by (apply existsb_exists; eauto).
  split; [exact Hhit|]. split; [exact He|].
  now rewrite He, (nonempty_In _ _ Hhit).
Qed.

Lemma shared_phrase_decides_verdict_witness :
  exists r : DetectionResult,
    detect_eviction_and_3_day_gap
      ("Re: your " ++ "3-Day Notice" ++ " of 02/01/2025 and 02/10/2025")
    = Ok r /\
    evicted_with_3_day_gap r = true.
Proof.
  destruct (@shared_phrase_decides_verdict
              "Re: your " "3-Day Notice" " of 02/01/2025 and 02/10/2025")
    as (r & Hr & _ & _ & Hv).
  - vm_compute. tauto.
  - vm_compute. tauto.
  - exists r. split; [exact Hr | exact Hv].
Defined.

(* ================================================================== *)
(** * Further properties: what the extractor can and cannot return *)

Lemma digit_free_advance (n : nat) :
  forall st, digit_free (rest st) -> digit_free (rest (advance n st)).
Proof.
  induction n as [|n IH]; intros st H; simpl; [exact H|].
  destruct (rest st) as [|c s'] eqn:E; [now rewrite E|].
  apply IH. simpl. unfold digit_free in H. simpl in H.
  now apply andb_true_iff in H.
Qed.

Lemma mtch_digit_free (r : regex) :
  forall st st', In st' (mtch r st) ->
                 digit_free (rest st) -> digit_free (rest st').
Proof.
  induction r as [| |c|k lo hi| |r1 IH1 r2 IH2|r1 IH1 r2 IH2|r IH|name r IH];
    intros st st' H Hd.
  - destruct H.
  - destruct H as [<- | []]. exact Hd.
  - cbn [mtch] in H. destruct (rest st) as [|a s'] eqn:E; [destruct H|].
    destruct (lit_matches c a); [|destruct H].
    destruct H as [<- | []]. apply digit_free_advance. now rewrite E.
  - apply mtch_Cls_In in H. destruct H as (n & -> & _).
    now apply digit_free_advance.
  - apply mtch_Boundary_In in H. now subst.
  - apply mtch_Cat_In in H. destruct H as (mid & H1 & H2). eauto.
  - cbn [mtch] in H. apply in_app_or in H. destruct H; eauto.
  - cbn [mtch] in H. apply in_app_or in H.
    destruct H as [H | [<- | []]]; eauto.
  - apply mtch_Named_In in H. destruct H as (mid & H & ->). simpl. eauto.
Qed.

Lemma run_digit_free (s : string) : digit_free s -> run Digit s = 0%nat.
Proof.
  destruct s as [|c s]; [reflexivity|]. unfold digit_free. simpl.
  intros H. apply andb_true_iff in H. destruct H as [H _].
  now destruct (is_decimal c).
Qed.

Lemma no_digit_group (name : string) (hi : option nat) (st st' : cursor) :
  digit_free (rest st) ->
  ~ In st' (mtch (Named name (Cls Digit 1 hi)) st).
Proof.
  intros Hd H. apply mtch_Named_In in H. destruct H as (mid & H & _).
  apply mtch_Cls_In in H. destruct H as (n & _ & Hn & _).
  rewrite (run_digit_free Hd) in Hn. lia.
Qed.

(** Each date pattern needs a digit to match. *)
Lemma date_patterns_need_digits (rx : regex) (st : cursor) :
  In rx DATE_REGEXES -> digit_free (rest st) -> mtch rx st = [].
Proof.
  intros Hrx Hd.
  destruct (mtch rx st) as [|st' l] eqn:E; [reflexivity|]. exfalso.
  assert (H : In st' (mtch rx st)) by (rewrite E; now left). clear E l.
  assert (Hnum : forall sep, ~ In st' (mtch (rx_numeric sep) st)).
  { intros sep H'. unfold rx_numeric, cat in H'. cbn [fold_right] in H'.
    apply mtch_Cat_In in H'. destruct H' as (s1 & H1 & H').
    apply mtch_Cat_In in H'. destruct H' as (s2 & H2 & _).
    apply mtch_Boundary_In in H1. subst s1.
    now apply no_digit_group in H2. }
  destruct Hrx as [<- | [<- | [<- | []]]];
    [exact (Hnum _ H) | exact (Hnum _ H) |].
  unfold rx_month, cat in H. cbn [fold_right] in H.
  apply mtch_Cat_In in H. destruct H as (s1 & H1 & H).
  apply mtch_Cat_In in H. destruct H as (s2 & H2 & H).
  apply mtch_Cat_In in H. destruct H as (s3 & H3 & H).
  apply mtch_Cat_In in H. destruct H as (s4 & H4 & _).
  apply mtch_digit_free in H1, H2, H3; auto.
  now apply no_digit_group in H4.
Qed.

Lemma finditer_digit_free (rx : regex) (s : string) :
  In rx DATE_REGEXES -> digit_free s ->
  forall skip p pv, finditer_from rx skip p pv s = [].
Proof.
  intros Hrx. induction s as [|c s IH]; intros Hd skip p pv.
  - simpl. destruct skip; [|reflexivity].
    unfold match_at. now rewrite date_patterns_need_digits.
  - assert (Hd' : digit_free s).
    { unfold digit_free in *. simpl in Hd.
      now apply andb_true_iff in Hd. }
    simpl. destruct skip; [|now apply IH].
    unfold match_at. rewrite date_patterns_need_digits; auto.
    simpl. now apply IH.
Qed.

Lemma extract_dates_digit_free (text : string) :
  digit_free text -> extract_dates text = [].
Proof.
  intros Hd. unfold extract_dates, matched_dates, DATE_REGEXES, finditer.
  cbn [fold_left].
  rewrite !finditer_digit_free; auto; unfold DATE_REGEXES; simpl; auto.
Qed.

(** X3.  A text without a decimal digit has no dates: the extractor
    returns the empty list, the engine reports no dates and no gap
    pairs, and its verdict rests on the phrases alone. *)
Theorem no_digit_no_date :
  forall text : string,
    digit_free text ->
    extract_dates text = [] /\
    exists r : DetectionResult,
      detect_eviction_and_3_day_gap text = Ok r /\
      extracted_dates r = [] /\
      date_pairs_with_3_day_gap r = [] /\
      evicted_with_3_day_gap r =
        looks_like_eviction r && explicit_three_day_language r.
Proof.
  intros text Hd. pose proof (extract_dates_digit_free Hd) as He.
  split; [exact He|].
  destruct (detect_ok text) as (pairs & Hg & Hr).
  rewrite He in Hg, Hr. simpl in Hg. inversion Hg; subst pairs.
  eexists. split; [exact Hr|].
  cbn [extracted_dates date_pairs_with_3_day_gap evicted_with_3_day_gap
       looks_like_eviction explicit_three_day_language map nonempty].
  now rewrite orb_false_r.
Qed.

Lemma no_digit_no_date_witness :
  extract_dates "Unlawful detainer: pay or quit within three days." = [] /\
  exists r : DetectionResult,
    detect_eviction_and_3_day_gap
      "Unlawful detainer: pay or quit within three days." = Ok r /\
    extracted_dates r = [] /\
    date_pairs_with_3_day_gap r = [] /\
    evicted_with_3_day_gap r =
      looks_like_eviction r && explicit_three_day_language r.
Proof.
  apply no_digit_no_date. reflexivity.
Defined.

Lemma int_digits_nonneg (s : string) :
  forall acc n, 0 <= acc -> int_digits acc s = Some n -> 0 <= n.
Proof.
  induction s as [|c s IH]; intros acc n Hacc H; cbn [int_digits] in H.
  - inversion H. now subst.
  - destruct (is_decimal c); [|discriminate H].
    apply IH in H; [exact H|]. lia.
Qed.

Lemma int_nonneg (s : string) (n : Z) : int s = Ok n -> 0 <= n.
Proof.
  unfold int. destruct s as [|c s]; [discriminate|].
  destruct (int_digits 0 (String c s)) eqn:E; [|discriminate].
  intros H. inversion H; subst.
  apply (@int_digits_nonneg (String c s) 0 n); [lia | exact E].
Qed.

Lemma new_datetime_valid (y m d : Z) (dt : datetime) :
  new_datetime y m d = Ok dt -> valid_date dt.
Proof.
  unfold new_datetime. destruct (_ && _) eqn:E; [|discriminate].
  intros H. inversion H; subst. unfold valid_date. simpl.
  rewrite !andb_true_iff, !Z.leb_le in E. tauto.
Qed.

Lemma build_date_valid (gd : groupdict) (mo : Z) (dt : datetime) :
  (ds <- gd_getitem gd "d" ;;
   d <- int ds ;;
   ys <- gd_getitem gd "y" ;;
   y <- int ys ;;
   dt <- new_datetime (_normalize_year y) mo d ;;
   Ok (Some dt)) = Ok (Some dt) ->
  valid_date dt /\ 100 <= year dt.
Proof.
  intros H. do 5 bind_inv H. inversion H; subst.
  split; [now apply new_datetime_valid in E3|].
  apply new_datetime_Ok in E3. subst dt. simpl.
  apply int_nonneg in E2. unfold _normalize_year.
  destruct (Z.ltb_spec a2 100); lia.
Qed.

Lemma date_of_match_valid (gd : groupdict) (dt : datetime) :
  date_of_match gd = Ok (Some dt) -> valid_date dt /\ 100 <= year dt.
Proof.
  unfold date_of_match. intros H.
  destruct (gd_get gd "month") as [[|c name]|].
  - do 2 bind_inv H. now apply build_date_valid in H.
  - destruct (map_get MONTH_MAP _) as [mo|]; [|discriminate H].
    destruct (mo =? 0); [discriminate H|].
    now apply build_date_valid in H.
  - do 2 bind_inv H. now apply build_date_valid in H.
Qed.

(** X4.  Every extracted date is a day of the calendar (month 1 to 12,
    day within the month, leap years counted), and its year lies
    between 100 and 9999: a year from 1 to 99 cannot be extracted,
    because a parsed year below 100 is moved to the 2000s. *)
Theorem extracted_dates_are_calendar_days :
  forall (text : string) (dt : datetime),
    In dt (extract_dates text) ->
    valid_date dt /\ 100 <= year dt <= 9999.
Proof.
  intros text dt Hin.
  apply extract_dates_spec, matched_dates_In in Hin.
  destruct Hin as (rx & gd & _ & _ & Hdt).
  apply date_of_match_valid in Hdt. destruct Hdt as [Hv Hy].
  split; [exact Hv|]. destruct Hv as [Hyear _].
  unfold MAXYEAR in Hyear. lia.
Qed.

Lemma extracted_dates_are_calendar_days_witness :
  valid_date (mkDatetime 2024 2 29) /\ 100 <= 2024 <= 9999.
Proof.
  apply (@extracted_dates_are_calendar_days
           "4/31/2026 2/29/2025 2/29/2024" (mkDatetime 2024 2 29)).
  vm_compute. now left.
Defined.
Local Open Scope string_scope.
Local Open Scope Z_scope.

(* ================================================================== *)
(** * Further properties: day numbers and the gap pairs *)

Lemma days_before_year_step (y : Z) :
  _days_before_year (y + 1) =
  _days_before_year y + 365 + (if _is_leap y then 1 else 0).
Proof.
  unfold _days_before_year, _is_leap. cbv zeta.
  replace (y + 1 - 1) with y by lia.
  destruct (Z.eqb_spec (y mod 4) 0), (Z.eqb_spec (y mod 100) 0),
           (Z.eqb_spec (y mod 400) 0); cbn [negb orb andb];
    Z.div_mod_to_equations; lia.
Qed.

Lemma days_before_year_mono (y y' : Z) :
  y <= y' -> _days_before_year y <= _days_before_year y'.
Proof.
  intros H. unfold _days_before_year. cbv zeta.
  Z.div_mod_to_equations. lia.
Qed.

Ltac month_cases m :=
  let H := fresh "Hm" in
  assert (H : m = 1 \/ m = 2 \/ m = 3 \/ m = 4 \/ m = 5 \/ m = 6 \/
              m = 7 \/ m = 8 \/ m = 9 \/ m = 10 \/ m = 11 \/ m = 12)
    by lia;
  repeat (destruct H as [H | H]; [subst m|]); [..|subst m].

(** Evaluate the table look-ups and comparisons on literal months. *)
Ltac month_tables :=
  repeat match goal with
         | |- context [nth (Z.to_nat ?m) ?l ?d] =>
             let v := eval vm_compute in (nth (Z.to_nat m) l d) in
             change (nth (Z.to_nat m) l d) with v
         | |- context [Z.eqb ?a ?b] =>
             let v := eval vm_compute in (Z.eqb a b) in
             change (Z.eqb a b) with v
         | |- context [Z.ltb ?a ?b] =>
             let v := eval vm_compute in (Z.ltb a b) in
             change (Z.ltb a b) with v
         end;
  cbn [andb].

Lemma day_of_year_bounds (y m d : Z) :
  1 <= m <= 12 -> 1 <= d <= _days_in_month y m ->
  1 <= _days_before_month y m + d <= 365 + (if _is_leap y then 1 else 0).
Proof.
  intros Hm. unfold _days_before_month, _days_in_month.
  destruct (_is_leap y); month_cases m; month_tables; lia.
Qed.

Lemma day_of_year_mono (y m d m' : Z) :
  1 <= m -> m < m' <= 12 -> 1 <= d <= _days_in_month y m ->
  _days_before_month y m + d <= _days_before_month y m'.
Proof.
  intros Hm Hm'. unfold _days_before_month, _days_in_month.
  destruct (_is_leap y); month_cases m; month_cases m';
    try lia; month_tables; lia.
Qed.

Lemma toordinal_mono (a b : datetime) :
  valid_date a -> valid_date b -> earlier a b ->
  toordinal (date_of a) < toordinal (date_of b).
Proof.
  intros (Hya & Hma & Hda) (Hyb & Hmb & Hdb) H.
  unfold earlier, datetime_ltb in H. apply date_ltb_lex in H.
  destruct a as [y1 m1 d1], b as [y2 m2 d2].
  unfold date_of, toordinal, _ymd2ord in *. simpl in *.
  pose proof (@day_of_year_bounds y1 m1 d1 Hma Hda) as B1.
  pose proof (@day_of_year_bounds y2 m2 d2 Hmb Hdb) as B2.
  destruct H as [H | [-> [H | [-> H]]]].
  - pose proof (days_before_year_step y1) as S1.
    pose proof (@days_before_year_mono (y1 + 1) y2) as M. lia.
  - assert (_days_before_month y2 m1 + d1 <= _days_before_month y2 m2)
      by (apply day_of_year_mono; lia).
    lia.
  - lia.
Qed.

Lemma StronglySorted_nth {A : Type} (R : A -> A -> Prop) (d : A)
  (l : list A) :
  StronglySorted R l ->
  forall i j, (i < j < List.length l)%nat -> R (nth i l d) (nth j l d).
Proof.
  induction 1 as [|a l Hs IH Ha]; intros i j Hij; simpl in Hij; [lia|].
  destruct j as [|j]; [lia|]. destruct i as [|i]; simpl.
  - rewrite Forall_forall in Ha. apply Ha, nth_In. lia.
  - apply IH. lia.
Qed.

Lemma flat_map_length_le {A B : Type} (f : A -> list B) (l : list A) :
  (forall x, In x l -> (List.length (f x) <= 1)%nat) ->
  (List.length (flat_map f l) <= List.length l)%nat.
Proof.
  induction l as [|x l IH]; intros H; simpl; [lia|].
  rewrite length_app.
  pose proof (H x (or_introl eq_refl)).
  assert (List.length (flat_map f l) <= List.length l)%nat
    by (apply IH; intros y Hy; apply H; now right).
  lia.
Qed.

Lemma filter_at_most_one {A : Type} (p : A -> bool) (l : list A) :
  NoDup l ->
  (forall x y, In x l -> In y l -> p x = true -> p y = true -> x = y) ->
  (List.length (filter p l) <= 1)%nat.
Proof.
  induction l as [|a l IH]; intros Hn Hu; simpl; [lia|].
  inversion Hn as [|? ? Ha Hn']; subst.
  destruct (p a) eqn:E.
  - assert (Hnil : filter p l = []).
    { destruct (filter p l) as [|b l'] eqn:F; [reflexivity|]. exfalso.
      assert (Hb : In b (filter p l)) by (rewrite F; now left).
      apply filter_In in Hb. destruct Hb as [Hb Hpb].
      apply Ha. rewrite (Hu a b); auto; [now left | now right]. }
    rewrite Hnil. simpl. lia.
  - apply IH; [exact Hn'|]. intros x y Hx Hy. apply Hu; now right.
Qed.

Section SortedGaps.

Variable dates : list datetime.
Variable d0 : datetime.
Hypothesis dates_sorted : StronglySorted earlier dates.
Hypothesis dates_valid : Forall valid_date dates.

Lemma ordinals_increase (i j : nat) :
  (i < j < List.length dates)%nat ->
  toordinal (date_of (nth i dates d0)) < toordinal (date_of (nth j dates d0)).
Proof.
  intros Hij. rewrite Forall_forall in dates_valid.
  apply toordinal_mono.
  - apply dates_valid, nth_In. lia.
  - apply dates_valid, nth_In. lia.
  - now apply StronglySorted_nth.
Qed.

(** Between sorted dates the absolute value in the gap test is idle. *)
Lemma forward_gap (i j : nat) :
  (i < j < List.length dates)%nat ->
  Z.abs (days_between (date_of (nth j dates d0)) (date_of (nth i dates d0)))
  = 3 ->
  days_between (date_of (nth j dates d0)) (date_of (nth i dates d0)) = 3.
Proof.
  intros Hij H. pose proof (ordinals_increase Hij).
  unfold days_between in *. lia.
Qed.

Lemma one_partner (i : nat) :
  (List.length
     (filter (fun j =>
                (Z.abs (days_between (date_of (nth j dates d0))
                                     (date_of (nth i dates d0))) =? 3)%Z)
             (range (i + 1) (List.length dates))) <= 1)%nat.
Proof.
  apply filter_at_most_one; [apply seq_NoDup|].
  intros j j' Hj Hj' Hp Hp'.
  apply in_range_iff in Hj, Hj'. apply Z.eqb_eq in Hp, Hp'.
  apply forward_gap in Hp, Hp'; try lia.
  unfold days_between in *.
  destruct (Nat.lt_trichotomy j j') as [H | [H | H]]; [|exact H|].
  - assert (Hlt : (j < j' < List.length dates)%nat) by lia.
    pose proof (ordinals_increase Hlt). lia.
  - assert (Hlt : (j' < j < List.length dates)%nat) by lia.
    pose proof (ordinals_increase Hlt). lia.
Qed.

Lemma sorted_gap_search :
  exists pairs,
    gap_search dates = Ok pairs /\
    (List.length pairs <= List.length dates - 1)%nat /\
    (forall a b n,
       In (a, b, n) pairs ->
       n = 3 /\
       exists di dj,
         In di dates /\ In dj dates /\
         a = isoformat (date_of di) /\ b = isoformat (date_of dj) /\
         earlier di dj /\
         days_between (date_of dj) (date_of di) = 3).
Proof.
  pose proof (gap_search_indices dates d0) as H1.
  pose proof (in_idx dates d0) as H3.
  cbv beta zeta in H1, H3.
  eexists. split; [exact H1|]. split.
  - rewrite length_map.
    destruct (List.length dates) as [|k] eqn:E; [simpl; lia|].
    replace (range 0 (S k)) with (seq 0 k ++ [k])%list
      by (unfold range; now rewrite Nat.sub_0_r, seq_S).
    rewrite flat_map_app, length_app. cbn [flat_map].
    replace (range (k + 1) (S k)) with (@nil nat)
      by (unfold range; now replace (S k - (k + 1))%nat with 0%nat by lia).
    cbn [filter map app List.length].
    match goal with
    | |- (List.length (flat_map ?F ?l) + _ <= _)%nat =>
        assert (Hle : (List.length (flat_map F l) <= List.length l)%nat)
    end.
    { apply flat_map_length_le. intros i _. rewrite length_map.
      rewrite <- E. apply one_partner. }
    rewrite length_seq in Hle. lia.
  - intros a b n Hin. apply in_map_iff in Hin.
    destruct Hin as ([i j] & Heq & Hin). apply H3 in Hin.
    destruct Hin as [Hij Hgap]. cbn [fst snd] in Heq.
    inversion Heq; subst a b n. split; [reflexivity|].
    exists (nth i dates d0), (nth j dates d0).
    split; [apply nth_In; lia|]. split; [apply nth_In; lia|].
    split; [reflexivity|]. split; [reflexivity|].
    split; [now apply StronglySorted_nth | now apply forward_gap].
Qed.

End SortedGaps.

Lemma extract_dates_valid (text : string) :
  Forall valid_date (extract_dates text).
Proof.
  apply Forall_forall. intros dt Hin.
  apply extract_dates_spec, matched_dates_In in Hin.
  destruct Hin as (rx & gd & _ & _ & Hdt).
  now apply date_of_match_valid in Hdt.
Qed.

Lemma detect_sorted_gaps (text : string) :
  exists r : DetectionResult,
    detect_eviction_and_3_day_gap text = Ok r /\
    (List.length (date_pairs_with_3_day_gap r)
     <= List.length (extracted_dates r) - 1)%nat /\
    (forall a b n,
       In (a, b, n) (date_pairs_with_3_day_gap r) ->
       n = 3 /\
       exists di dj,
         In di (extract_dates text) /\ In dj (extract_dates text) /\
         a = isoformat (date_of di) /\ b = isoformat (date_of dj) /\
         earlier di dj /\
         days_between (date_of dj) (date_of di) = 3).
Proof.
  destruct (detect_ok text) as (pairs & Hg & Hr).
  destruct (@sorted_gap_search (extract_dates text) (mkDatetime 0 0 0))
    as (pairs' & Hg' & Hlen & Hfwd).
  - apply extract_dates_spec.
  - apply extract_dates_valid.
  - rewrite Hg in Hg'. inversion Hg'; subst pairs'.
    eexists. split; [exact Hr|].
    cbn [date_pairs_with_3_day_gap extracted_dates].
    rewrite length_map. split; [exact Hlen | exact Hfwd].
Qed.

(** X5.  Every reported gap pair runs forward in time: its two strings
    are the ISO forms of two extracted dates, the first on an earlier
    day than the second, exactly three days later, and its third field
    is 3. *)
Theorem gap_pairs_run_forward :
  forall text : string,
  exists r : DetectionResult,
    detect_eviction_and_3_day_gap text = Ok r /\
    forall a b n,
      In (a, b, n) (date_pairs_with_3_day_gap r) ->
      n = 3 /\
      exists di dj,
        In di (extract_dates text) /\ In dj (extract_dates text) /\
        a = isoformat (date_of di) /\ b = isoformat (date_of dj) /\
        earlier di dj /\
        days_between (date_of dj) (date_of di) = 3.
Proof.
  intros text. destruct (detect_sorted_gaps text) as (r & Hr & _ & Hfwd).
  exists r. split; [exact Hr | exact Hfwd].
Qed.

Lemma gap_pairs_run_forward_witness :
  exists di dj,
    In di (extract_dates "Due 01/04/2026, served 01/01/2026") /\
    In dj (extract_dates "Due 01/04/2026, served 01/01/2026") /\
    "2026-01-01" = isoformat (date_of di) /\
    "2026-01-04" = isoformat (date_of dj) /\
    earlier di dj /\
    days_between (date_of dj) (date_of di) = 3.
Proof.
  destruct (gap_pairs_run_forward "Due 01/04/2026, served 01/01/2026")
    as (r & Hr & Hfwd).
  apply (Hfwd "2026-01-01" "2026-01-04" 3).
  vm_compute in Hr. inversion Hr. now left.
Defined.

(** X6.  There are fewer gap pairs than dates: a result with [n > 0]
    extracted dates has at most [n - 1] gap pairs, and one without
    dates has none. *)
Theorem fewer_gap_pairs_than_dates :
  forall text : string,
  exists r : DetectionResult,
    detect_eviction_and_3_day_gap text = Ok r /\
    (List.length (date_pairs_with_3_day_gap r)
     <= List.length (extracted_dates r) - 1)%nat.
Proof.
  intros text. destruct (detect_sorted_gaps text) as (r & Hr & Hlen & _).
  exists r. split; [exact Hr | exact Hlen].
Qed.

(** The sample of [run_self_test], with its line breaks and
    indentation: both assertions of the self-test hold. *)
Example self_test_passes :
  exists r : DetectionResult,
    detect_eviction_and_3_day_gap
      (String.concat nl
         [ "";
           "    THREE-DAY NOTICE TO PAY RENT OR QUIT";
           "    Notice served on: 01/01/2026";
           "    You must pay within three days. Deadline: 01/04/2026";
           "    " ]) = Ok r /\
    looks_like_eviction r = true /\
    evicted_with_3_day_gap r = true.
Proof. eexists. split; [vm_compute; reflexivity|]. split; reflexivity. Qed.

(* ================================================================== *)
(** * Further properties: the case of the letters A to Z

    The lemmas below are about [lower], the lower-casing of the
    characters U+0000..U+00FF; the theorem that closes the section
    only changes the case of the letters A to Z. *)

Lemma lower_char_idem (c : ascii) : lower_char (lower_char c) = lower_char c.
Proof. destruct c as [[] [] [] [] [] [] [] []]; reflexivity. Qed.

Lemma is_decimal_lower (c : ascii) : is_decimal (lower_char c) = is_decimal c.
Proof. destruct c as [[] [] [] [] [] [] [] []]; reflexivity. Qed.

Lemma is_space_lower (c : ascii) : is_space (lower_char c) = is_space c.
Proof. destruct c as [[] [] [] [] [] [] [] []]; reflexivity. Qed.

Lemma is_word_lower (c : ascii) : is_word (lower_char c) = is_word c.
Proof. destruct c as [[] [] [] [] [] [] [] []]; reflexivity. Qed.

Lemma decimal_lower_fixed (c : ascii) :
  is_decimal c = true -> lower_char c = c.
Proof.
  destruct c as [[] [] [] [] [] [] [] []]; intros H;
    first [reflexivity | discriminate H].
Qed.

Lemma in_class_lower (k : charclass) (c : ascii) :
  in_class k (lower_char c) = in_class k c.
Proof. destruct k; [apply is_decimal_lower | apply is_space_lower]. Qed.

Lemma lower_idem (s : string) : lower (lower s) = lower s.
Proof.
  induction s as [|c s IH]; simpl; [reflexivity|].
  now rewrite lower_char_idem, IH.
Qed.

Lemma lower_take (n : nat) : forall s, lower (take n s) = take n (lower s).
Proof.
  induction n as [|n IH]; intros [|c s]; simpl; try reflexivity.
  now rewrite IH.
Qed.

Lemma run_lower (k : charclass) (s : string) : run k (lower s) = run k s.
Proof.
  induction s as [|c s IH]; simpl; [reflexivity|].
  now rewrite in_class_lower, IH.
Qed.

Lemma advance_lower (n : nat) :
  forall st, advance n (lower_cursor st) = lower_cursor (advance n st).
Proof.
  induction n as [|n IH]; intros st; [reflexivity|].
  destruct st as [p pv s g]. destruct s as [|c s]; [reflexivity|].
  simpl. apply (IH (mkCursor (S p) (Some c) s g)).
Qed.

Lemma flat_map_through {A B : Type} (f : A -> A) (g : B -> B)
  (m : A -> list B) (l : list A) :
  (forall x, m (f x) = map g (m x)) ->
  flat_map m (map f l) = map g (flat_map m l).
Proof.
  intros H. induction l as [|x l IH]; simpl; [reflexivity|].
  now rewrite H, IH, map_app.
Qed.

Lemma word_before_lower (st : cursor) :
  word_before (lower_cursor st) = word_before st.
Proof.
  destruct st as [p [c|] s g]; unfold word_before; cbn [prev lower_cursor
    option_map]; [apply is_word_lower | reflexivity].
Qed.

Lemma word_after_lower (st : cursor) :
  word_after (lower_cursor st) = word_after st.
Proof.
  destruct st as [p pv [|c s] g]; unfold word_after; cbn [rest lower_cursor
    lower]; [reflexivity | apply is_word_lower].
Qed.

(** Matching the lower-cased text gives the lower-cased matches. *)
Lemma mtch_lower (r : regex) :
  forall st, mtch r (lower_cursor st) = map lower_cursor (mtch r st).
Proof.
  induction r as [| |c|k lo hi| |r1 IH1 r2 IH2|r1 IH1 r2 IH2|r IH|name r IH];
    intros st.
  - reflexivity.
  - reflexivity.
  - cbn [mtch]. destruct st as [p pv s g]. destruct s as [|a s];
      [reflexivity|]. cbn [rest lower_cursor lower].
    unfold lit_matches. rewrite lower_char_idem.
    destruct (Ascii.eqb (lower_char a) (lower_char c)); reflexivity.
  - cbn [mtch]. rewrite map_map.
    replace (run k (rest (lower_cursor st))) with (run k (rest st))
      by (destruct st; simpl; now rewrite run_lower).
    apply map_ext. intros n. apply advance_lower.
  - cbn [mtch].
    rewrite word_before_lower, word_after_lower.
    destruct (xorb _ _); reflexivity.
  - cbn [mtch]. rewrite IH1. now apply flat_map_through.
  - cbn [mtch]. now rewrite IH1, IH2, map_app.
  - cbn [mtch]. now rewrite IH, map_app.
  - cbn [mtch]. rewrite IH, !map_map. apply map_ext. intros x.
    destruct st as [p pv s g], x as [p' pv' s' g'].
    unfold set_group, lower_cursor. simpl. now rewrite lower_take.
Qed.

Lemma finditer_from_lower (r : regex) (s : string) :
  forall skip p pv,
    finditer_from r skip p (option_map lower_char pv) (lower s) =
    map lower_groups (finditer_from r skip p pv s).
Proof.
  induction s as [|c s IH]; intros skip p pv.
  - cbn [finditer_from lower]. destruct skip; [|reflexivity].
    change (mkCursor p (option_map lower_char pv) "" [])
      with (lower_cursor (mkCursor p pv "" [])).
    unfold match_at. rewrite mtch_lower.
    destruct (mtch r _) as [|x l]; reflexivity.
  - cbn [finditer_from lower]. destruct skip.
    + change (mkCursor p (option_map lower_char pv)
                       (String (lower_char c) (lower s)) [])
        with (lower_cursor (mkCursor p pv (String c s) [])).
      unfold match_at. rewrite mtch_lower.
      destruct (mtch r _) as [|x l]; cbn [map hd_error].
      * apply (IH _ _ (Some c)).
      * destruct x as [p' pv' s' g']. cbn [groups pos lower_cursor].
        apply f_equal. apply (IH _ _ (Some c)).
    + apply (IH _ _ (Some c)).
Qed.

Lemma gd_get_lower (gd : groupdict) (name : string) :
  gd_get (lower_groups gd) name = option_map lower (gd_get gd name).
Proof.
  induction gd as [|[k v] gd IH]; simpl; [reflexivity|].
  destruct (String.eqb k name); [reflexivity | exact IH].
Qed.

Lemma int_digits_lower (s : string) :
  forall acc, int_digits acc (lower s) = int_digits acc s.
Proof.
  induction s as [|c s IH]; intros acc; cbn [int_digits lower];
    [reflexivity|].
  rewrite is_decimal_lower. destruct (is_decimal c) eqn:E; [|reflexivity].
  now rewrite (decimal_lower_fixed _ E), IH.
Qed.

Lemma int_lower (s : string) : int (lower s) = int s.
Proof.
  destruct s as [|c s]; [reflexivity|].
  unfold int. change (lower (String c s))
    with (String (lower_char c) (lower s)).
  change (String (lower_char c) (lower s)) with (lower (String c s)).
  now rewrite int_digits_lower.
Qed.

(** The common end of the two branches of [date_of_match]. *)
Lemma build_date_lower (gd : groupdict) (mo : Z) :
  (ds <- gd_getitem (lower_groups gd) "d" ;;
   d <- int ds ;;
   ys <- gd_getitem (lower_groups gd) "y" ;;
   y <- int ys ;;
   dt <- new_datetime (_normalize_year y) mo d ;;
   Ok (Some dt)) =
  (ds <- gd_getitem gd "d" ;;
   d <- int ds ;;
   ys <- gd_getitem gd "y" ;;
   y <- int ys ;;
   dt <- new_datetime (_normalize_year y) mo d ;;
   Ok (Some dt)).
Proof.
  unfold gd_getitem. rewrite (gd_get_lower gd "d").
  destruct (gd_get gd "d") as [ds|]; cbn [option_map bind]; [|reflexivity].
  rewrite int_lower. destruct (int ds) as [d|e]; cbn [bind]; [|reflexivity].
  rewrite (gd_get_lower gd "y").
  destruct (gd_get gd "y") as [ys|]; cbn [option_map bind]; [|reflexivity].
  now rewrite int_lower.
Qed.

Lemma date_of_match_lower (gd : groupdict) :
  date_of_match (lower_groups gd) = date_of_match gd.
Proof.
  unfold date_of_match. rewrite (gd_get_lower gd "month").
  assert (Hnum :
    (ms <- gd_getitem (lower_groups gd) "m" ;;
     mo <- int ms ;;
     ds <- gd_getitem (lower_groups gd) "d" ;;
     d <- int ds ;;
     ys <- gd_getitem (lower_groups gd) "y" ;;
     y <- int ys ;;
     dt <- new_datetime (_normalize_year y) mo d ;;
     Ok (Some dt)) =
    (ms <- gd_getitem gd "m" ;;
     mo <- int ms ;;
     ds <- gd_getitem gd "d" ;;
     d <- int ds ;;
     ys <- gd_getitem gd "y" ;;
     y <- int ys ;;
     dt <- new_datetime (_normalize_year y) mo d ;;
     Ok (Some dt))).
  { unfold gd_getitem at 1 4. rewrite (gd_get_lower gd "m").
    destruct (gd_get gd "m") as [ms|]; cbn [option_map bind];
      [|reflexivity].
    rewrite int_lower. destruct (int ms) as [mo|e]; cbn [bind];
      [|reflexivity].
    apply build_date_lower. }
  destruct (gd_get gd "month") as [[|c name]|]; cbn [option_map lower];
    try exact Hnum.
  rewrite lower_char_idem, lower_idem.
  destruct (map_get MONTH_MAP _) as [mo|]; [|reflexivity].
  destruct (mo =? 0); [reflexivity|]. apply build_date_lower.
Qed.

Lemma extract_dates_lower (text : string) :
  extract_dates (lower text) = extract_dates text.
Proof.
  unfold extract_dates. f_equal. f_equal. f_equal.
  unfold matched_dates. generalize (@nil datetime).
  induction DATE_REGEXES as [|rx rxs IH]; intros acc; [reflexivity|].
  cbn [fold_left]. rewrite IH. f_equal.
  unfold finditer.
  change (finditer_from rx 0 0 None (lower text))
    with (finditer_from rx 0 0 (option_map lower_char None) (lower text)).
  rewrite finditer_from_lower.
  generalize (finditer_from rx 0 0 None text) as gds. intros gds.
  revert acc. induction gds as [|gd gds IHg]; intros acc; [reflexivity|].
  cbn [map fold_left]. rewrite IHg. f_equal.
  unfold collect_match. now rewrite date_of_match_lower.
Qed.

Lemma detect_lower (text : string) :
  detect_eviction_and_3_day_gap (lower text) =
  detect_eviction_and_3_day_gap text.
Proof.
  unfold detect_eviction_and_3_day_gap.
  now rewrite lower_idem, extract_dates_lower.
Qed.

Lemma same_char_lower (a b : ascii) :
  same_char_up_to_case a b = true -> lower_char a = lower_char b.
Proof.
  unfold same_char_up_to_case. intros H. apply orb_true_iff in H.
  destruct H as [H | H].
  - apply Ascii.eqb_eq in H. now subst.
  - apply andb_true_iff in H. destruct H as [_ H].
    now apply Ascii.eqb_eq in H.
Qed.

Lemma same_case_lower (s : string) :
  forall t, same_up_to_ascii_case s t = true -> lower s = lower t.
Proof.
  induction s as [|a s IH]; intros [|b t] H; simpl in H;
    try discriminate H; [reflexivity|].
  apply andb_true_iff in H. destruct H as [Hc Hs].
  cbn [lower]. now rewrite (same_char_lower _ _ Hc), (IH t Hs).
Qed.

(** X7.  Detection does not depend on the case of the letters A to Z:
    two texts that differ only in the case of such letters get the same
    dates and the same detection result. *)
Theorem detection_ignores_ascii_case :
  forall t1 t2 : string,
    same_up_to_ascii_case t1 t2 = true ->
    extract_dates t1 = extract_dates t2 /\
    detect_eviction_and_3_day_gap t1 = detect_eviction_and_3_day_gap t2.
Proof.
  intros t1 t2 H. apply same_case_lower in H. split.
  - now rewrite <- (extract_dates_lower t1), H, extract_dates_lower.
  - now rewrite <- (detect_lower t1), H, detect_lower.
Qed.

Lemma detection_ignores_ascii_case_witness :
  extract_dates "three-day NOTICE served JAN 1st, 2026; due JANUARY 4, 2026" =
  extract_dates "Three-Day Notice served jan 1ST, 2026; due January 4, 2026" /\
  detect_eviction_and_3_day_gap
    "three-day NOTICE served JAN 1st, 2026; due JANUARY 4, 2026" =
  detect_eviction_and_3_day_gap
    "Three-Day Notice served jan 1ST, 2026; due January 4, 2026".
Proof.
  apply detection_ignores_ascii_case. reflexivity.
Defined.

(* ================================================================== *)
(** * Further properties: the composer and its prompt *)

Lemma startswith_split (p s : string) :
  startswith p s = true -> exists y, s = p ++ y.
Proof.
  revert s. induction p as [|c p IH]; intros s H; [now exists s|].
  destruct s as [|d s]; simpl in H; [discriminate H|].
  apply andb_true_iff in H. destruct H as [Hc Hs].
  apply Ascii.eqb_eq in Hc. subst d.
  destruct (IH _ Hs) as (y & ->). now exists y.
Qed.

Lemma append_assoc (a b c : string) : (a ++ b) ++ c = a ++ b ++ c.
Proof. induction a as [|x a IH]; simpl; [reflexivity | now rewrite IH]. Qed.

(** [p in s] holds exactly when [s] is [p] with text around it. *)
Lemma contains_iff (s p : string) :
  contains s p = true <-> exists x y, s = x ++ p ++ y.
Proof.
  split.
  - induction s as [|c s IH]; simpl; intros H.
    + rewrite orb_false_r in H. apply startswith_split in H.
      destruct H as (y & ->). now exists "", y.
    + apply orb_true_iff in H. destruct H as [H | H].
      * apply (@startswith_split p (String c s)) in H.
        destruct H as (y & ->). now exists "", y.
      * destruct (IH H) as (x & y & ->). now exists (String c x), y.
  - intros (x & y & ->). apply contains_app_r, contains_app_l, contains_refl.
Qed.

Lemma contains_trans (s p q : string) :
  contains s p = true -> contains p q = true -> contains s q = true.
Proof.
  rewrite !contains_iff. intros (x & y & ->) (u & v & ->).
  exists (x ++ u), (v ++ y). now rewrite !append_assoc.
Qed.

Lemma contains_concat (sep x : string) (l : list string) :
  In x l -> contains (String.concat sep l) x = true.
Proof.
  induction l as [|a l IH]; intros H; [destruct H|].
  destruct l as [|b l].
  - destruct H as [-> | []]. apply contains_refl.
  - change (String.concat sep (a :: b :: l))
      with (a ++ sep ++ String.concat sep (b :: l)).
    destruct H as [-> | H].
    + apply contains_app_l, contains_refl.
    + apply contains_app_r, contains_app_r. now apply IH.
Qed.

(** The prompt shows the two tenant fields and every argument passed
    to it. *)
Lemma build_prompt_shows (args : list LegalArgument)
  (tenant_context : tenant_context_t) :
  contains (build_prompt args tenant_context)
           ("- State: " ++ shown (map_get tenant_context "state")) = true /\
  contains (build_prompt args tenant_context)
           ("- Eviction type: "
            ++ shown (map_get tenant_context "eviction_type")) = true /\
  forall arg, In arg args ->
              contains (build_prompt args tenant_context)
                       (argument_line arg) = true.
Proof.
  unfold build_prompt. cbv zeta. split; [|split].
  - apply contains_concat. simpl. tauto.
  - apply contains_concat. simpl. tauto.
  - intros arg Hin.
    apply contains_trans
      with (p := String.concat nl (map argument_line args)).
    + apply contains_concat. simpl. tauto.
    + apply contains_concat. now apply in_map.
Qed.

Lemma generate_by_selection (llm : string -> exc string)
  (codes codes' : list string) (tenant_context : tenant_context_t) :
  valid_args codes = valid_args codes' ->
  generate_eviction_argument_section_from_up_codes llm codes tenant_context =
  generate_eviction_argument_section_from_up_codes llm codes' tenant_context.
Proof.
  intros H. unfold generate_eviction_argument_section_from_up_codes.
  now rewrite H.
Qed.

Lemma argument_of_valid (code : string) :
  map_contains LEGAL_ARGUMENTS code = true ->
  exists arg, map_get LEGAL_ARGUMENTS code = Some arg /\
              argument_of code = [arg].
Proof.
  unfold map_contains, argument_of.
  destruct (map_get LEGAL_ARGUMENTS code) as [arg|]; [|discriminate].
  intros _. now exists arg.
Qed.

Lemma flat_map_valid_cons (code : string) (l : list string) :
  map_contains LEGAL_ARGUMENTS code = true ->
  exists arg, flat_map argument_of (code :: l) =
              arg :: flat_map argument_of l.
Proof.
  intros H. destruct (@argument_of_valid code H) as (arg & _ & E).
  exists arg. cbn [flat_map]. now rewrite E.
Qed.

Lemma flat_map_filter_valid (codes : list string) :
  flat_map argument_of (filter (map_contains LEGAL_ARGUMENTS) codes) =
  flat_map argument_of codes.
Proof.
  induction codes as [|c l IH]; [reflexivity|]. cbn [filter flat_map].
  destruct (map_contains LEGAL_ARGUMENTS c) eqn:E.
  - cbn [flat_map]. now rewrite IH.
  - rewrite IH. unfold argument_of at 2. unfold map_contains in E.
    now destruct (map_get LEGAL_ARGUMENTS c).
Qed.

Lemma firstn_two_valid (l : list string) :
  Forall (fun c => map_contains LEGAL_ARGUMENTS c = true) l ->
  firstn 2 (flat_map argument_of (firstn 2 l)) =
  firstn 2 (flat_map argument_of l).
Proof.
  intros H. destruct l as [|a [|b l]]; try reflexivity.
  inversion H as [|? ? Ha H']; subst. inversion H' as [|? ? Hb _]; subst.
  destruct (@argument_of_valid a Ha) as (x & _ & Ex).
  destruct (@argument_of_valid b Hb) as (y & _ & Ey).
  cbn [firstn flat_map]. now rewrite Ex, Ey.
Qed.

Lemma valid_args_of_selection (codes : list string) :
  valid_args (firstn 2 (filter (map_contains LEGAL_ARGUMENTS) codes)) =
  valid_args codes.
Proof.
  rewrite !valid_args_ok. f_equal.
  rewrite firstn_two_valid.
  - now rewrite flat_map_filter_valid.
  - apply Forall_forall. intros c Hc. now apply filter_In in Hc.
Qed.

(** X8.  Only the first two valid codes count: the composer does the
    same, calls included, when the codes that are not in the table and
    the valid codes after the second are removed from the list. *)
Theorem composer_uses_first_two_valid_codes :
  forall (llm_query : string -> exc string) (up_codes : list string)
         (tenant_context : tenant_context_t),
    generate_eviction_argument_section_from_up_codes
      llm_query up_codes tenant_context =
    generate_eviction_argument_section_from_up_codes
      llm_query
      (firstn 2 (filter (map_contains LEGAL_ARGUMENTS) up_codes))
      tenant_context.
Proof.
  intros llm codes ctx. apply generate_by_selection.
  symmetry. apply valid_args_of_selection.
Qed.

Lemma valid_code_selected (up_codes : list string) (code : string) :
  In code up_codes -> map_contains LEGAL_ARGUMENTS code = true ->
  exists arg args, flat_map argument_of up_codes = arg :: args.
Proof.
  intros Hin Hc. induction up_codes as [|c l IH]; [destruct Hin|].
  destruct Hin as [-> | Hin].
  - destruct (@flat_map_valid_cons code l Hc) as (arg & E). eauto.
  - destruct (IH Hin) as (arg & args & E). cbn [flat_map]. rewrite E.
    destruct (argument_of c) as [|x xs]; simpl; eauto.
Qed.

(** X9.  As soon as one code is in the table the service is called
    exactly once, with the prompt built from the selected arguments, and
    the composer's outcome is the outcome of that call: generated text
    and exceptions pass through unchanged. *)
Theorem composer_passes_service_outcome :
  forall (llm_query : string -> exc string) (up_codes : list string)
         (tenant_context : tenant_context_t) (code : string),
    In code up_codes -> map_contains LEGAL_ARGUMENTS code = true ->
    exists arg args,
      valid_args up_codes = Ok (arg :: args) /\
      generate_eviction_argument_section_from_up_codes
        llm_query up_codes tenant_context =
      ([build_prompt (arg :: args) tenant_context],
       llm_query (build_prompt (arg :: args) tenant_context)).
Proof.
  intros llm codes ctx code Hin Hc.
  destruct (@valid_code_selected codes code Hin Hc) as (arg & rest & E).
  unfold generate_eviction_argument_section_from_up_codes.
  rewrite valid_args_ok, E.
  exists arg, (firstn 1 rest). split; reflexivity.
Qed.

(** A service that fails: the composer fails with the same exception
    after one call. *)
Lemma composer_passes_service_outcome_witness :
  exists prompt,
    generate_eviction_argument_section_from_up_codes
      (fun _ => Raise (OtherError "quota exceeded")) ["UP999"; "UP001"]
      [("state", "Colorado")] =
    ([prompt], Raise (OtherError "quota exceeded")).
Proof.
  destruct (@composer_passes_service_outcome
              (fun _ => Raise (OtherError "quota exceeded"))
              ["UP999"; "UP001"] [("state", "Colorado")] "UP001")
    as (arg & args & _ & H).
  - right. now left.
  - reflexivity.
  - eexists. exact H.
Defined.

Lemma selected_argument_In (up_codes : list string) (code : string)
  (arg : LegalArgument) :
  In code (firstn 2 (filter (map_contains LEGAL_ARGUMENTS) up_codes)) ->
  map_get LEGAL_ARGUMENTS code = Some arg ->
  In arg (firstn 2 (flat_map argument_of up_codes)).
Proof.
  intros Hin Hget.
  assert (H : In (Some arg)
                 (map Some (firstn 2 (flat_map argument_of up_codes)))).
  { rewrite <- firstn_map, arguments_of_valid_codes, firstn_map.
    rewrite <- Hget. now apply in_map. }
  apply in_map_iff in H. destruct H as (x & Hx & H).
  inversion Hx. now subst.
Qed.

(** X10.  The prompt handed to the service carries, verbatim, the claim
    and explanation of each of the first two valid codes, and the
    tenant's state and eviction type (shown as None when missing). *)
Theorem prompt_carries_selected_arguments :
  forall (llm_query : string -> exc string) (up_codes : list string)
         (tenant_context : tenant_context_t) (code : string)
         (arg : LegalArgument),
    In code (firstn 2 (filter (map_contains LEGAL_ARGUMENTS) up_codes)) ->
    map_get LEGAL_ARGUMENTS code = Some arg ->
    exists prompt,
      generate_eviction_argument_section_from_up_codes
        llm_query up_codes tenant_context = ([prompt], llm_query prompt) /\
      contains prompt
        ("- " ++ short_claim arg ++ " " ++ long_explanation arg) = true /\
      contains prompt
        ("- State: " ++ shown (map_get tenant_context "state")) = true /\
      contains prompt
        ("- Eviction type: "
         ++ shown (map_get tenant_context "eviction_type")) = true.
Proof.
  intros llm codes ctx code arg Hin Hget.
  pose proof (@selected_argument_In codes code arg Hin Hget) as Harg.
  unfold generate_eviction_argument_section_from_up_codes.
  rewrite valid_args_ok.
  destruct (firstn 2 (flat_map argument_of codes)) as [|a l] eqn:E;
    [destruct Harg|].
  cbn [nonempty negb].
  destruct (build_prompt_shows (a :: l) ctx) as (H1 & H2 & H3).
  eexists. split; [reflexivity|]. split; [|split]; auto.
  apply (H3 arg Harg).
Qed.

Lemma prompt_carries_selected_arguments_witness :
  exists prompt,
    generate_eviction_argument_section_from_up_codes
      (fun p => Ok p) ["UP013"; "UP001"; "UP003"] [("state", "Colorado")] =
    ([prompt], Ok prompt) /\
    contains prompt
      ("- " ++ short_claim UP001_argument ++ " "
       ++ long_explanation UP001_argument) = true /\
    contains prompt "- State: Colorado" = true /\
    contains prompt "- Eviction type: None" = true.
Proof.
  apply (@prompt_carries_selected_arguments
           (fun p => Ok p) ["UP013"; "UP001"; "UP003"]
           [("state", "Colorado")] "UP001" UP001_argument).
  - vm_compute. tauto.
  - reflexivity.
Defined.

(* ================================================================== *)
(** * Further properties: the completion service *)

Lemma llm_query_gemini_cases
  (getenv : string -> option string)
  (generate_content : string -> string -> exc (option gemini_response))
  (prompt model : string) :
  (truthy (getenv "GEMINI_API_KEY") = false /\
   llm_query_gemini getenv generate_content prompt model =
   ([], Raise (EnvironmentError
                 "Missing GEMINI_API_KEY environment variable."))) \/
  (truthy (getenv "GEMINI_API_KEY") = true /\
   fst (llm_query_gemini getenv generate_content prompt model) =
   [(model, prompt)] /\
   ((exists e, snd (llm_query_gemini getenv generate_content prompt model)
               = Raise e) \/
    (exists c t,
       generate_content model prompt =
         Ok (Some (mkResponse (Some (String c t)))) /\
       snd (llm_query_gemini getenv generate_content prompt model)
       = Ok (String c t)))).
Proof.
  unfold llm_query_gemini.
  destruct (truthy (getenv "GEMINI_API_KEY")); cbn [negb]; [right | now left].
  split; [reflexivity|].
  destruct (generate_content model prompt) as [[[[[|c t]|]]|]|e];
    cbn [response_text fst snd]; split; try reflexivity; eauto.
Qed.

(** X11.  Without an API key in the environment (unset or empty) the
    service fails before the client is called.  With a key the client
    is called exactly once, and text is returned only when the response
    carries a non-empty text: the function never returns the empty
    string. *)
Theorem gemini_needs_key_and_text :
  forall (getenv : string -> option string)
         (generate_content : string -> string -> exc (option gemini_response))
         (prompt model : string),
    (truthy (getenv "GEMINI_API_KEY") = false ->
     llm_query_gemini getenv generate_content prompt model =
     ([], Raise (EnvironmentError
                   "Missing GEMINI_API_KEY environment variable."))) /\
    (truthy (getenv "GEMINI_API_KEY") = true ->
     fst (llm_query_gemini getenv generate_content prompt model) =
     [(model, prompt)]) /\
    (forall text,
       snd (llm_query_gemini getenv generate_content prompt model) = Ok text ->
       text <> "" /\
       generate_content model prompt = Ok (Some (mkResponse (Some text)))).
Proof.
  intros getenv client prompt model.
  destruct (llm_query_gemini_cases getenv client prompt model)
    as [[Hk H] | (Hk & Hc & [(e & He) | (c & t & Hg & Ht)])].
  - split; [intros _; exact H|]. split.
    + rewrite Hk. discriminate.
    + intros text Ht. rewrite H in Ht. discriminate Ht.
  - split; [rewrite Hk; discriminate|]. split; [intros _; exact Hc|].
    intros text Ht. rewrite He in Ht. discriminate Ht.
  - split; [rewrite Hk; discriminate|]. split; [intros _; exact Hc|].
    intros text Ht'. rewrite Ht in Ht'. inversion Ht' as [Heq].
    split; [discriminate | exact Hg].
Qed.

(** An empty key, and a client that answers with an empty text. *)
Lemma gemini_needs_key_and_text_witness :
  llm_query_gemini (fun _ => Some "") (fun _ _ => Ok None) "Hello" "m" =
  ([], Raise (EnvironmentError
                "Missing GEMINI_API_KEY environment variable.")) /\
  fst (llm_query_gemini (fun _ => Some "k")
         (fun _ _ => Ok (Some (mkResponse (Some "")))) "Hello" "m") =
  [("m", "Hello")] /\
  snd (llm_query_gemini (fun _ => Some "k")
         (fun _ _ => Ok (Some (mkResponse (Some "")))) "Hello" "m") =
  Raise (RuntimeError "Empty Gemini response: ").
Proof.
  split; [|split].
  - apply (gemini_needs_key_and_text
             (fun _ => Some "") (fun _ _ => Ok None) "Hello" "m").
    reflexivity.
  - apply (gemini_needs_key_and_text
             (fun _ => Some "k")
             (fun _ _ => Ok (Some (mkResponse (Some "")))) "Hello" "m").
    reflexivity.
  - reflexivity.
Defined.

Lemma valid_code_dec (up_codes : list string) :
  (forall code, In code up_codes ->
                map_contains LEGAL_ARGUMENTS code = false) \/
  (exists code, In code up_codes /\
                map_contains LEGAL_ARGUMENTS code = true).
Proof.
  induction up_codes as [|c l [IH | (code & Hin & Hc)]].
  - left. intros code [].
  - destruct (map_contains LEGAL_ARGUMENTS c) eqn:E.
    + right. exists c. split; [now left | exact E].
    + left. intros code [<- | Hin]; auto.
  - right. exists code. split; [now right | exact Hc].
Qed.

(** X12.  With [llm_query_gemini] as its service the composer returns
    the empty string exactly when no code of the list is in the table:
    an empty section never stands for a blank generation.  In that case
    neither the environment nor the client matters. *)
Theorem empty_section_means_no_valid_code :
  forall (getenv : string -> option string)
         (generate_content : string -> string -> exc (option gemini_response))
         (up_codes : list string) (tenant_context : tenant_context_t),
    snd (compose_with_gemini getenv generate_content up_codes tenant_context)
    = Ok "" <->
    (forall code, In code up_codes ->
                  map_contains LEGAL_ARGUMENTS code = false).
Proof.
  intros getenv client codes ctx. unfold compose_with_gemini. split.
  - intros H. destruct (valid_code_dec codes) as [Hno | (code & Hin & Hc)];
      [exact Hno|]. exfalso.
    destruct (@valid_code_selected codes code Hin Hc) as (arg & rest & E).
    unfold generate_eviction_argument_section_from_up_codes in H.
    rewrite valid_args_ok, E in H. cbn [firstn nonempty negb snd] in H.
    match type of H with
    | snd (llm_query_gemini _ _ ?p _) = _ =>
        destruct (llm_query_gemini_cases getenv client p DEFAULT_MODEL)
          as [[_ H'] | (_ & _ & [(e & He) | (c & t & _ & Ht)])]
    end.
    + rewrite H' in H. discriminate H.
    + rewrite He in H. discriminate H.
    + rewrite Ht in H. discriminate H.
  - intros Hno.
    unfold generate_eviction_argument_section_from_up_codes.
    now rewrite valid_args_ok, (no_valid_code_no_argument _ Hno).
Qed.

(* ================================================================== *)
(** * Further properties: text extraction *)

Lemma lstrip_fixed (s : string) :
  match s with
  | String c _ => is_space c = false
  | EmptyString => True
  end ->
  lstrip s = s.
Proof. destruct s as [|c s]; simpl; [reflexivity|]. now intros ->. Qed.

Lemma lstrip_head (s : string) :
  match lstrip s with
  | String c _ => is_space c = false
  | EmptyString => True
  end.
Proof.
  induction s as [|c s IH]; simpl; [exact I|].
  destruct (is_space c) eqn:E; [exact IH | exact E].
Qed.

Lemma rstrip_head (s : string) :
  match s with
  | String c _ => is_space c = false
  | EmptyString => True
  end ->
  match rstrip s with
  | String c _ => is_space c = false
  | EmptyString => True
  end.
Proof.
  destruct s as [|c s]; simpl; [auto|]. intros E.
  destruct (rstrip s); [now rewrite E | exact E].
Qed.

Lemma rstrip_idem (s : string) : rstrip (rstrip s) = rstrip s.
Proof.
  induction s as [|c s IH]; simpl; [reflexivity|].
  destruct (rstrip s) as [|d r] eqn:E.
  - destruct (is_space c) eqn:Ec; simpl; [reflexivity | now rewrite Ec].
  - change (rstrip (String c (String d r)))
      with (match rstrip (String d r) with
            | EmptyString =>
                if is_space c then EmptyString else String c EmptyString
            | String a b => String c (String a b)
            end).
    now rewrite IH.
Qed.

Lemma strip_idem (s : string) : strip (strip s) = strip s.
Proof.
  unfold strip.
  rewrite (lstrip_fixed (rstrip (lstrip s))).
  - apply rstrip_idem.
  - apply rstrip_head, lstrip_head.
Qed.

(** X13.  Text extraction fails for a missing file whatever the
    libraries would do, and otherwise fails only when both library
    blocks fail; a failure of the first library is never fatal.  The
    text it returns is stripped: stripping it again changes nothing. *)
Theorem ocr_outcomes :
  forall (path_exists : string -> bool)
         (image_to_string : string -> library_call string)
         (readtext : string -> library_call (list string))
         (image_path : string),
    (path_exists image_path = false ->
     ocr_extract_text path_exists image_to_string readtext image_path =
     Raise (FileNotFoundError ("Image not found: " ++ image_path))) /\
    (path_exists image_path = true ->
     (exists text,
        ocr_extract_text path_exists image_to_string readtext image_path
        = Ok text) <->
     ((exists t, image_to_string image_path = Returned t) \/
      (exists l, readtext image_path = Returned l))) /\
    (forall text,
       ocr_extract_text path_exists image_to_string readtext image_path
       = Ok text ->
       strip text = text).
Proof.
  intros ex ocr1 ocr2 path. unfold ocr_extract_text.
  destruct (ex path); cbn [negb].
  - split; [discriminate|]. split.
    + intros _. split.
      * intros (text & H).
        destruct (ocr1 path) as [| |t]; [| |left; eauto];
          (destruct (ocr2 path) as [| |l]; [discriminate H | discriminate H
                                            | right; eauto]).
      * intros [(t & ->) | (l & Hl)]; [eauto|].
        rewrite Hl. destruct (ocr1 path); eauto.
    + intros text H.
      assert (G : forall l : list string,
                 strip (if nonempty l then strip (String.concat nl l) else "")
                 = (if nonempty l then strip (String.concat nl l) else "")).
      { intros l. destruct (nonempty l); [apply strip_idem | reflexivity]. }
      destruct (ocr1 path) as [| |t].
      * destruct (ocr2 path) as [| |l]; try discriminate H.
        inversion H. apply G.
      * destruct (ocr2 path) as [| |l]; try discriminate H.
        inversion H. apply G.
      * inversion H. destruct t; [reflexivity | apply strip_idem].
  - split; [reflexivity|]. split; [discriminate|].
    intros text H. discriminate H.
Qed.

(** The first library crashes, the second reads two lines. *)
Lemma ocr_outcomes_witness :
  ocr_extract_text (fun _ => false) (fun _ => Returned "x")
    (fun _ => Returned []) "notice.jpg" =
  Raise (FileNotFoundError "Image not found: notice.jpg") /\
  ocr_extract_text (fun _ => true) (fun _ => CallFailed "no tesseract")
    (fun _ => Returned ["  THREE-DAY NOTICE"; "to quit  "]) "notice.jpg" =
  Ok ("THREE-DAY NOTICE" ++ nl ++ "to quit").
Proof.
  split.
  - apply (ocr_outcomes (fun _ => false) (fun _ => Returned "x")
             (fun _ => Returned []) "notice.jpg").
    reflexivity.
  - reflexivity.
Defined.

(* ================================================================== *)
(** * Further properties: a canonical list of dates, distinct strings *)

(** A strictly ascending list is determined by its members. *)
Lemma strictly_sorted_unique (l1 : list datetime) :
  forall l2,
    StronglySorted earlier l1 -> StronglySorted earlier l2 ->
    (forall d, In d l1 <-> In d l2) -> l1 = l2.
Proof.
  induction l1 as [|a l1 IH]; intros l2 H1 H2 Hin.
  - destruct l2 as [|b l2]; [reflexivity|].
    destruct (proj2 (Hin b) (or_introl eq_refl)).
  - destruct l2 as [|b l2]; [destruct (proj1 (Hin a) (or_introl eq_refl))|].
    inversion H1 as [|? ? S1 F1]; subst.
    inversion H2 as [|? ? S2 F2]; subst.
    rewrite Forall_forall in F1, F2.
    assert (Hab : a = b).
    { destruct (proj1 (Hin a) (or_introl eq_refl)) as [E | Ha]; [auto|].
      destruct (proj2 (Hin b) (or_introl eq_refl)) as [E | Hb]; [auto|].
      exfalso. apply (@earlier_irrefl a a); [|reflexivity].
      apply earlier_trans with b; auto. }
    subst b. f_equal. apply IH; auto.
    intros d. split; intros Hd.
    + destruct (proj1 (Hin d) (or_intror Hd)) as [E | Hd']; [|exact Hd'].
      subst d. exfalso. now apply (earlier_irrefl (F1 a Hd)).
    + destruct (proj2 (Hin d) (or_intror Hd)) as [E | Hd']; [|exact Hd'].
      subst d. exfalso. now apply (earlier_irrefl (F2 a Hd)).
Qed.

(** X14.  The extractor's result depends only on which days are
    matched: two texts whose matches build the same set of dates, in
    any order and however often, give the same list. *)
Theorem extract_dates_canonical :
  forall t1 t2 : string,
    (forall d, In d (matched_dates t1) <-> In d (matched_dates t2)) ->
    extract_dates t1 = extract_dates t2.
Proof.
  intros t1 t2 H.
  destruct (extract_dates_spec t1) as [S1 I1].
  destruct (extract_dates_spec t2) as [S2 I2].
  apply strictly_sorted_unique; auto.
  intros d. now rewrite I1, I2.
Qed.

Lemma extract_dates_canonical_witness :
  extract_dates "Pay by 1/4/2026 (notice of Jan 1 2026)" =
  extract_dates "January 1st, 2026; 01-04-26; again 1/1/2026 and 1/4/26".
Proof.
  apply extract_dates_canonical.
  intros d. vm_compute. tauto.
Defined.

Lemma append_inj_length (a a' b b' : string) :
  String.length a = String.length a' ->
  a ++ b = a' ++ b' -> a = a' /\ b = b'.
Proof.
  revert a'. induction a as [|c a IH]; intros [|c' a'] Hl H;
    simpl in Hl; try discriminate Hl.
  - now split.
  - simpl in H. inversion H; subst.
    destruct (IH a') as [-> ->]; auto.
Qed.

Lemma zrange_In (n : nat) :
  forall from y, from <= y < from + Z.of_nat n -> In y (zrange n from).
Proof.
  induction n as [|n IH]; intros from y H; [lia|].
  destruct (Z.eq_dec y from) as [-> | Hne]; [now left|].
  right. apply IH. lia.
Qed.

Lemma format_4_checked :
  forallb (format_reads_back 4) (zrange (Z.to_nat 10000) 0) = true.
Proof. vm_compute. reflexivity. Qed.

Lemma format_2_checked :
  forallb (format_reads_back 2) (zrange (Z.to_nat 100) 0) = true.
Proof. vm_compute. reflexivity. Qed.

Lemma format_reads_back_true (w : nat) (n : Z) :
  format_reads_back w n = true ->
  String.length (format_0d w n) = w /\ int (format_0d w n) = Ok n.
Proof.
  unfold format_reads_back. intros H. apply andb_true_iff in H.
  destruct H as [H1 H2]. apply Nat.eqb_eq in H1. split; [exact H1|].
  destruct (int (format_0d w n)) as [n'|]; [|discriminate H2].
  apply Z.eqb_eq in H2. now subst.
Qed.

(** Reading a zero-padded field back with [int] gives the number. *)
Lemma format_4_int (y : Z) :
  0 <= y <= 9999 ->
  String.length (format_0d 4 y) = 4%nat /\ int (format_0d 4 y) = Ok y.
Proof.
  intros Hy. apply format_reads_back_true.
  pose proof format_4_checked as H. rewrite forallb_forall in H.
  apply H, zrange_In. rewrite Z2Nat.id; lia.
Qed.

Lemma format_2_int (m : Z) :
  0 <= m <= 99 ->
  String.length (format_0d 2 m) = 2%nat /\ int (format_0d 2 m) = Ok m.
Proof.
  intros Hm. apply format_reads_back_true.
  pose proof format_2_checked as H. rewrite forallb_forall in H.
  apply H, zrange_In. rewrite Z2Nat.id; lia.
Qed.

Lemma valid_date_fields (d : datetime) :
  valid_date d ->
  0 <= year d <= 9999 /\ 0 <= month d <= 99 /\ 0 <= day d <= 99.
Proof.
  intros (Hy & Hm & Hd). unfold MINYEAR, MAXYEAR in Hy.
  split; [lia|]. split; [lia|].
  assert (_days_in_month (year d) (month d) <= 31).
  { unfold _days_in_month. generalize (_is_leap (year d)). intros b.
    generalize dependent (month d). clear. intros m Hm _.
    destruct b; month_cases m; month_tables; lia. }
  lia.
Qed.

Lemma isoformat_inj (a b : datetime) :
  valid_date a -> valid_date b ->
  isoformat (date_of a) = isoformat (date_of b) -> a = b.
Proof.
  intros Ha Hb H.
  apply valid_date_fields in Ha, Hb.
  destruct Ha as (Ya & Ma & Da), Hb as (Yb & Mb & Db).
  destruct a as [y1 m1 d1], b as [y2 m2 d2]. simpl in *.
  unfold isoformat, date_of in H. simpl in H.
  destruct (format_4_int Ya) as [L1 I1], (format_4_int Yb) as [L2 I2].
  destruct (format_2_int Ma) as [L3 I3], (format_2_int Mb) as [L4 I4].
  destruct (format_2_int Da) as [L5 I5], (format_2_int Db) as [L6 I6].
  apply append_inj_length in H; [|congruence]. destruct H as [E1 H].
  apply (@append_inj_length "-" "-") in H; [|reflexivity].
  destruct H as [_ H].
  apply append_inj_length in H; [|congruence]. destruct H as [E2 H].
  apply (@append_inj_length "-" "-") in H; [|reflexivity].
  destruct H as [_ E3].
  rewrite E1 in I1. rewrite E2 in I3. rewrite E3 in I5.
  congruence.
Qed.

Lemma append_length (a b : string) :
  String.length (a ++ b) = (String.length a + String.length b)%nat.
Proof. induction a as [|c a IH]; simpl; [reflexivity | now rewrite IH]. Qed.

Lemma isoformat_length (a : datetime) :
  valid_date a -> String.length (isoformat (date_of a)) = 10%nat.
Proof.
  intros Ha. apply valid_date_fields in Ha. destruct Ha as (Ya & Ma & Da).
  destruct a as [y m d]. cbn [year month day] in *.
  unfold isoformat, date_of. cbn [year month day].
  destruct (format_4_int Ya) as [L1 _], (format_2_int Ma) as [L2 _],
           (format_2_int Da) as [L3 _].
  rewrite !append_length, L1, L2, L3. reflexivity.
Qed.

Lemma NoDup_map_on {A B : Type} (f : A -> B) (l : list A) :
  (forall x y, In x l -> In y l -> f x = f y -> x = y) ->
  NoDup l -> NoDup (map f l).
Proof.
  intros Hinj Hn. induction Hn as [|a l Ha Hn IH]; simpl; constructor.
  - intros H. apply in_map_iff in H. destruct H as (b & Hb & Hin).
    apply Ha. rewrite (Hinj a b); auto; [now left | now right].
  - apply IH. intros x y Hx Hy. apply Hinj; now right.
Qed.

(** X15.  The date strings of a result are pairwise distinct and have
    the ten characters of YYYY-MM-DD, one string per extracted date:
    formatting keeps the days apart. *)
Theorem extracted_date_strings_distinct :
  forall text : string,
  exists r : DetectionResult,
    detect_eviction_and_3_day_gap text = Ok r /\
    extracted_dates r =
      map (fun d => isoformat (date_of d)) (extract_dates text) /\
    NoDup (extracted_dates r) /\
    Forall (fun s => String.length s = 10%nat) (extracted_dates r).
Proof.
  intros text. destruct (detect_ok text) as (pairs & _ & Hr).
  eexists. split; [exact Hr|]. cbn [extracted_dates].
  split; [reflexivity|].
  pose proof (extract_dates_valid text) as Hv. rewrite Forall_forall in Hv.
  split.
  - apply NoDup_map_on.
    + intros x y Hx Hy. apply isoformat_inj; auto.
    + apply (NoDup_map_inv date_of), strictly_sorted_days,
        extract_dates_spec.
  - apply Forall_forall. intros s Hs. apply in_map_iff in Hs.
    destruct Hs as (d & <- & Hd). apply isoformat_length. auto.
Qed.
